(** * Naukri scraper: a shallow embedding of [naukri_scraper.py]

    The script drives a browser over result pages, collects seven columns
    of text, cleans them with pandas string methods, and prints frequency
    tables.  This file embeds the pure parts as functions on lists of
    characters and the effectful parts as computations that log events.

    Text is a list of characters with code points below 256, read the way
    Python reads a [str]: the classes [\s] and [\w] and [str.lower] follow
    the Unicode tables on that range. *)

From Stdlib Require Import Ascii String DecimalString.
From Stdlib Require Import Floats Uint63 QArith.
From Stdlib Require Import Bool Arith Lia NArith ZArith List Permutation.
From Stdlib Require Import Sorted DecimalNat.
Import ListNotations.

Local Open Scope nat_scope.
Local Open Scope list_scope.

Definition text := list ascii.

(** String literals of the source are written [t"..."] (a list of characters). *)
Definition t (s : string) : text := list_ascii_of_string s.

Definition text_eqb (a b : text) : bool :=
  if list_eq_dec ascii_dec a b then true else false.

(* ================================================================== *)
(** ** Python [str] methods used by the script *)

Module Py.

Definition code (c : ascii) : N := N_of_ascii c.

Definition between (lo hi : N) (c : ascii) : bool :=
  (lo <=? code c)%N && (code c <=? hi)%N.

(** [str.isspace] on one character; also what [str.strip()] removes. *)
Definition isspace (c : ascii) : bool :=
  between 9 13 c || between 28 32 c || (code c =? 133)%N || (code c =? 160)%N.

(** [str.isalnum] on one character. *)
Definition isalnum (c : ascii) : bool :=
  between 48 57 c || between 65 90 c || between 97 122 c
  || (code c =? 170)%N || between 178 179 c || (code c =? 181)%N
  || between 185 186 c || between 188 190 c
  || between 192 214 c || between 216 246 c || between 248 255 c.

Definition lower_char (c : ascii) : ascii :=
  if between 65 90 c || between 192 214 c || between 216 222 c
  then ascii_of_N (code c + 32)
  else c.

(** [s.lower()] *)
Definition lower (s : text) : text := map lower_char s.

(** [str(n)] for a non-negative [int]. *)
Definition str_of_nat (n : nat) : text :=
  t (NilEmpty.string_of_uint (Nat.to_uint n)).

Fixpoint startswith (p s : text) : bool :=
  match p, s with
  | [], _ => true
  | _ :: _, [] => false
  | a :: p', b :: s' => Ascii.eqb a b && startswith p' s'
  end.

(** [s.replace(old, new)]: occurrences of [old] are found left to right
    and do not overlap.  [skip] counts the characters of the occurrence
    just replaced that are still to be passed over. *)
Fixpoint replace_from (old new : text) (skip : nat) (s : text) : text :=
  match s with
  | [] => []
  | c :: s' =>
      match skip with
      | S k => replace_from old new k s'
      | O =>
          if startswith old s
          then new ++ replace_from old new (length old - 1) s'
          else c :: replace_from old new 0 s'
      end
  end.

Definition replace (old new s : text) : text :=
  match old with
  | [] => new ++ flat_map (fun c => c :: new) s
  | _ :: _ => replace_from old new 0 s
  end.

(** [s.split(sep)] for a one-character separator: never an empty list. *)
Fixpoint split (sep : ascii) (s : text) : list text :=
  match s with
  | [] => [[]]
  | c :: s' =>
      if Ascii.eqb c sep then [] :: split sep s'
      else match split sep s' with
           | [] => [[c]]
           | w :: ws => (c :: w) :: ws
           end
  end.

(** [sep.join(parts)] *)
Fixpoint join (sep : text) (parts : list text) : text :=
  match parts with
  | [] => []
  | [p] => p
  | p :: ps => p ++ sep ++ join sep ps
  end.

Fixpoint lstrip (s : text) : text :=
  match s with
  | [] => []
  | c :: s' => if isspace c then lstrip s' else s
  end.

Fixpoint rstrip (s : text) : text :=
  match s with
  | [] => []
  | c :: s' =>
      match rstrip s' with
      | [] => if isspace c then [] else [c]
      | r => c :: r
      end
  end.

(** [s.strip()] *)
Definition strip (s : text) : text := rstrip (lstrip s).

End Py.

(* ================================================================== *)
(** ** The fragment of [re] the script uses

    Every pattern of the script is a sequence of single characters,
    classes, greedy stars over a class, [\b] and [$].  The matcher is the
    backtracking one of [re]: a star first takes as many characters as it
    can and gives them back one at a time. *)

Module Re.

Inductive cset :=
| Lit (c : ascii)   (* a literal character *)
| Dot               (* .   anything but a newline *)
| Space             (* \s  *)
| Word.             (* \w  *)

Inductive node :=
| One (k : cset)
| Star (k : cset)   (* k*  greedy *)
| Bound             (* \b  *)
| Eol.              (* $   *)

Definition regex := list node.

Definition isword (c : ascii) : bool :=
  Py.isalnum c || (Py.code c =? 95)%N.

Definition mem (k : cset) (c : ascii) : bool :=
  match k with
  | Lit d => Ascii.eqb d c
  | Dot => negb (Py.code c =? 10)%N
  | Space => Py.isspace c
  | Word => isword c
  end.

Definition word_before (prev : option ascii) : bool :=
  match prev with Some c => isword c | None => false end.

Definition word_after (s : text) : bool :=
  match s with c :: _ => isword c | [] => false end.

(** [\b]: exactly one of the two neighbours is a word character. *)
Definition at_boundary (prev : option ascii) (s : text) : bool :=
  xorb (word_before prev) (word_after s).

(** [$]: the end of the text, or just before a final newline. *)
Definition at_end (s : text) : bool :=
  match s with
  | [] => true
  | [c] => (Py.code c =? 10)%N
  | _ => false
  end.

(** [match_here r adv n prev s]: match [r] at the front of [s], where
    [prev] is the character before [s] and [n] characters of the match
    have been consumed already.  The result is the length of the match.
    With [adv] an empty match is refused, and the matcher backtracks. *)
Fixpoint match_here (r : regex) (adv : bool)
  : nat -> option ascii -> text -> option nat :=
  match r with
  | [] => fun n _ _ => if adv && (n =? 0) then None else Some n
  | One k :: r' => fun n _ s =>
      match s with
      | c :: s' => if mem k c then match_here r' adv (S n) (Some c) s' else None
      | [] => None
      end
  | Star k :: r' =>
      fix star (n : nat) (prev : option ascii) (s : text) : option nat :=
        match s with
        | c :: s' =>
            if mem k c then
              match star (S n) (Some c) s' with
              | Some m => Some m
              | None => match_here r' adv n prev s
              end
            else match_here r' adv n prev s
        | [] => match_here r' adv n prev s
        end
  | Bound :: r' => fun n prev s =>
      if at_boundary prev s then match_here r' adv n prev s else None
  | Eol :: r' => fun n prev s =>
      if at_end s then match_here r' adv n prev s else None
  end.

(** [re.sub(r, repl, s)], scanning from the left.  [skip] counts the
    characters of the last match still to be passed over.  After an empty
    match the search is repeated at the same place for a match that is
    not empty; failing that the character is copied. *)
Fixpoint sub_from (r : regex) (repl : text) (skip : nat)
    (prev : option ascii) (s : text) {struct s} : text :=
  match skip with
  | S k =>
      match s with
      | c :: s' => sub_from r repl k (Some c) s'
      | [] => []
      end
  | O =>
      match match_here r false 0 prev s with
      | None =>
          match s with
          | c :: s' => c :: sub_from r repl 0 (Some c) s'
          | [] => []
          end
      | Some (S m) =>
          repl ++ match s with
                  | c :: s' => sub_from r repl m (Some c) s'
                  | [] => []
                  end
      | Some O =>
          repl ++
          match match_here r true 0 prev s with
          | Some (S m) =>
              repl ++ match s with
                      | c :: s' => sub_from r repl m (Some c) s'
                      | [] => []
                      end
          | _ =>
              match s with
              | c :: s' => c :: sub_from r repl 0 (Some c) s'
              | [] => []
              end
          end
      end
  end.

Definition sub (r : regex) (repl s : text) : text := sub_from r repl 0 None s.

(** A run of literal characters. *)
Definition lits (s : string) : regex := map (fun c => One (Lit c)) (t s).

End Re.

Import Re.

(* ================================================================== *)
(** ** Location normalisation ([clean_and_analyze_locations]) *)

Definition location_patterns : list regex :=
  [ [One (Lit "("); Star Dot; One (Lit ")")]                  (* \(.*\)         *)
  ; lits "hybrid" ++ [Star Space; One (Lit "-"); Star Space]  (* hybrid\s*-\s*  *)
  ; [Bound] ++ lits "new" ++ [One Space]                      (* \bnew\s        *)
  ; [Star Space]                                              (* \s*            *)
  ; [One (Lit "/"); Star Dot; Eol]                            (* /.*$           *)
  ]%char.

Definition replace_location_patterns (location : text) : text :=
  Py.strip (fold_left (fun loc pattern => sub pattern [] loc)
                      location_patterns location).

(** [\b\w*name\w*\b] *)
Definition word_containing (name : string) : regex :=
  [Bound; Star Word] ++ lits name ++ [Star Word; Bound].

Definition replacements : list (regex * text) :=
  [ (word_containing "mumbai", t"mumbai")
  ; (word_containing "delhi",  t"delhi")
  ; (word_containing "bangal", t"bengaluru")
  ; (word_containing "noida",  t"noida") ]%string.

Definition replace_common_locations (location : text) : text :=
  Py.strip (fold_left (fun loc pr => sub (fst pr) (snd pr) loc)
                      replacements location).

(* ================================================================== *)
(** ** Data: the scraped dictionary and the cleaned table *)

(** The dictionary [jobs] of [scrape_naukri_jobs]: seven lists. *)
Module Jobs.
Record dict := mk
  { job_no : list nat
  ; roles : list text
  ; companies : list text
  ; locations : list text
  ; experience : list text
  ; salaries : list text
  ; skills : list text }.

Definition empty : dict := mk [] [] [] [] [] [] [].
End Jobs.

(** The table returned by [process_job_data]: one list per column; the
    cells of [locations] and [skills] are lists of strings. *)
Module Df.
Record frame := mk
  { job_no : list text
  ; roles : list text
  ; companies : list text
  ; locations : list (list text)
  ; experience : list text
  ; salaries : list text
  ; skills : list (list text) }.
End Df.

(* ================================================================== *)
(** ** Effects: a trace of events and an outcome *)

Inductive exn :=
| NoSuchElementException
| WebDriverException
| ValueError
| TypeError
| OSError.

Inductive field := Experience | Salary | Location | Skill.

(** The functions [main] calls, and the values passed between them. *)
Inductive func :=
| scrape_naukri_jobs_f
| process_job_data_f
| to_csv_f
| analyze_f (f : field).

Inductive value :=
| VNone
| VDriver
| VInt (n : nat)
| VJobs (j : Jobs.dict)
| VFrame (df : Df.frame).

(** The fixed status lines of the script, one constructor per [print]. *)
Inductive note :=
| Scraping_started | Scraping_complete | No_job_data | Raw_data_saved
| Analyzing (f : field)
| Counts_heading (f : field) | Percentages_heading (f : field)
| Distinct_heading
| Plot_saved (name : text)
| Analysis_complete
| Error_occurred (e : exn)
| WebDriver_closed.

Inductive printed :=
| Note (n : note)
| Counts (c : list (text * nat))          (* a [value_counts] series *)
| Percentages (p : list (text * float))
| Cell (v : option text).                 (* one value; [None] is NaN *)

Inductive figure :=
| Bar (data : list (text * nat))
| Cloud (words : text).

Inductive event :=
| Open                                    (* webdriver.Chrome() *)
| Maximize
| Quit                                    (* driver.quit() *)
| Get (page : nat)                        (* driver.get(...-jobs-{page}) *)
| Print (p : printed)
| Savefig (name : text) (fig : figure)
| Call (f : func) (args : list value)
| Ret (f : func) (v : value)
| Exc (f : func) (e : exn).

Inductive outcome (A : Type) :=
| Return (a : A)
| Raise (e : exn).
Arguments Return {A} a.
Arguments Raise {A} e.

Definition M (A : Type) : Type := list event * outcome A.

Definition ret {A} (a : A) : M A := ([], Return a).
Definition raise {A} (e : exn) : M A := ([], Raise e).
Definition emit (e : event) : M unit := ([e], Return tt).

Definition bind {A B} (m : M A) (k : A -> M B) : M B :=
  match m with
  | (tr, Return a) => let (tr', r) := k a in (tr ++ tr', r)
  | (tr, Raise e) => (tr, Raise e)
  end.

Arguments bind {A B} m k : simpl never.

Notation "x <- m ;; k" := (bind m (fun x => k))
  (at level 61, m at next level, right associativity).
Notation "m ;;; k" := (bind m (fun _ => k))
  (at level 61, right associativity).

Definition trace {A} (m : M A) : list event := fst m.
Definition result {A} (m : M A) : outcome A := snd m.

(** [try: body except E: handler] for the exceptions selected by [catch]. *)
Definition try_except {A} (body : M A) (catch : exn -> bool) (handler : M A)
  : M A :=
  match body with
  | (tr, Raise e) =>
      if catch e then let (tr', r) := handler in (tr ++ tr', r)
      else (tr, Raise e)
  | done => done
  end.

Definition is_NoSuchElement (e : exn) : bool :=
  match e with NoSuchElementException => true | _ => false end.

(** A call of one of [main]'s callees, with its arguments and what it
    returned or raised. *)
Definition call {A} (f : func) (args : list value) (body : M A)
    (val : A -> value) : M A :=
  match body with
  | (tr, Return a) => (Call f args :: tr ++ [Ret f (val a)], Return a)
  | (tr, Raise e) => (Call f args :: tr ++ [Exc f e], Raise e)
  end.

(* ================================================================== *)
(** ** The outside world

    What the browser shows and whether the library calls succeed is not
    decided by the script; a [world] fixes it for one run. *)

(** The answer of [find_element] for one class name. *)
Inductive lookup (A : Type) :=
| Found (a : A)
| Missing            (* raises NoSuchElementException *)
| Broken.            (* raises another WebDriverException *)
Arguments Found {A} a.
Arguments Missing {A}.
Arguments Broken {A}.

(** One element of class [srp-jobtuple-wrapper]. *)
Record job_tuple := mk_job
  { title : lookup text
  ; comp_name : lookup text
  ; loc_wrap : lookup text
  ; exp_wrap : lookup text
  ; sal_wrap : list text           (* find_elements: the texts found *)
  ; tags_gt : lookup (list text)   (* the texts of the [li] below it *)
  }.

Record world := mk_world
  { chrome_starts : bool                      (* webdriver.Chrome() returns *)
  ; maximize_ok : bool                        (* maximize_window() returns *)
  ; site : nat -> option (list job_tuple)     (* page i; None: get raises *)
  ; to_csv_ok : bool
  ; plot_ok : text -> bool                    (* drawing and saving a file *)
  }.

(* ================================================================== *)
(** ** Configuration *)

Definition job_role : text := t"SDET".
Definition num_pages : nat := 1.

(* ================================================================== *)
(** ** [initialize_driver] and [scrape_naukri_jobs] *)

Definition initialize_driver (w : world) : M unit :=
  if chrome_starts w then
    emit Open ;;;
    if maximize_ok w then emit Maximize
    else raise WebDriverException
  else raise WebDriverException.

Definition find_element {A} (l : lookup A) : M A :=
  match l with
  | Found a => ret a
  | Missing => raise NoSuchElementException
  | Broken => raise WebDriverException
  end.

(** The body of the inner loop for one job element. *)
Definition scrape_job (jobs : Jobs.dict) (jobno : nat) (job : job_tuple)
  : M Jobs.dict :=
  try_except
    (role <- find_element (title job) ;;
     company <- find_element (comp_name job) ;;
     location <- find_element (loc_wrap job) ;;
     exp <- find_element (exp_wrap job) ;;
     let salary := match sal_wrap job with
                   | e :: _ => e
                   | [] => t"NA"
                   end in
     skill <- try_except
                (skill_li <- find_element (tags_gt job) ;;
                 ret (Py.join (t",") skill_li))
                is_NoSuchElement
                (ret (t"NA")) ;;
     ret (Jobs.mk (Jobs.job_no jobs ++ [jobno])
                  (Jobs.roles jobs ++ [role])
                  (Jobs.companies jobs ++ [company])
                  (Jobs.locations jobs ++ [location])
                  (Jobs.experience jobs ++ [exp])
                  (Jobs.salaries jobs ++ [salary])
                  (Jobs.skills jobs ++ [skill])))
    is_NoSuchElement
    (ret jobs).

(** [for index, job in enumerate(lst)], from position [index] on. *)
Fixpoint scrape_tuples (i len index : nat) (lst : list job_tuple)
    (jobs : Jobs.dict) : M Jobs.dict :=
  match lst with
  | [] => ret jobs
  | job :: rest =>
      jobs' <- scrape_job jobs (i * len + index + 1) job ;;
      scrape_tuples i len (S index) rest jobs'
  end.

(** [for i in range(num_pages)], over the page numbers [pages]. *)
Fixpoint scrape_pages (w : world) (pages : list nat) (jobs : Jobs.dict)
  : M Jobs.dict :=
  match pages with
  | [] => ret jobs
  | i :: rest =>
      emit (Get i) ;;;
      lst <- match site w i with
             | Some lst => ret lst
             | None => raise WebDriverException
             end ;;
      jobs' <- scrape_tuples i (length lst) 0 lst jobs ;;
      scrape_pages w rest jobs'
  end.

Definition scrape_naukri_jobs (w : world) (num_pages : nat) : M Jobs.dict :=
  scrape_pages w (seq 0 num_pages) Jobs.empty.

(* ================================================================== *)
(** ** [process_job_data] *)

(** [pd.DataFrame.from_dict] accepts the dictionary when its lists have
    one length, and raises [ValueError] otherwise. *)
Definition same_length (j : Jobs.dict) : bool :=
  let n := length (Jobs.job_no j) in
  (length (Jobs.roles j) =? n) && (length (Jobs.companies j) =? n)
  && (length (Jobs.locations j) =? n) && (length (Jobs.experience j) =? n)
  && (length (Jobs.salaries j) =? n) && (length (Jobs.skills j) =? n).

Definition process_job_data (jobs_data : Jobs.dict) : M Df.frame :=
  if same_length jobs_data then
    (* df_raw.apply(lambda x: x.astype(str).str.lower()) *)
    let job_no := map (fun n => Py.lower (Py.str_of_nat n))
                      (Jobs.job_no jobs_data) in
    let roles := map Py.lower (Jobs.roles jobs_data) in
    let companies := map Py.lower (Jobs.companies jobs_data) in
    let locations := map Py.lower (Jobs.locations jobs_data) in
    let experience := map Py.lower (Jobs.experience jobs_data) in
    let salaries := map Py.lower (Jobs.salaries jobs_data) in
    let skills := map Py.lower (Jobs.skills jobs_data) in
    (* split locations and skills *)
    let skills := map (Py.split ",") skills in
    let locations := map (Py.split ",") locations in
    (* remove ' lacs pa' and ' yrs' *)
    let salaries := map (Py.replace (t" lacs pa") []) salaries in
    let experience := map (Py.replace (t" yrs") []) experience in
    ret (Df.mk job_no roles companies locations experience salaries skills)
  else raise ValueError.

(* ================================================================== *)
(** ** The pandas operations of the analysis *)

Module Pd.

(** Counting with a table kept in order of first appearance. *)
Fixpoint bump (v : text) (tbl : list (text * nat)) : list (text * nat) :=
  match tbl with
  | [] => [(v, 1)]
  | (k, n) :: tbl' =>
      if text_eqb k v then (k, S n) :: tbl' else (k, n) :: bump v tbl'
  end.

Definition tally (col : list text) : list (text * nat) :=
  fold_left (fun tbl v => bump v tbl) col [].

(** Insertion into a table sorted by falling count; equal counts keep
    their order. *)
Fixpoint insert_desc (e : text * nat) (tbl : list (text * nat))
  : list (text * nat) :=
  match tbl with
  | [] => [e]
  | x :: tbl' =>
      if snd e <? snd x then x :: insert_desc e tbl' else e :: tbl
  end.

Definition sort_desc (tbl : list (text * nat)) : list (text * nat) :=
  fold_right insert_desc [] tbl.

(** [Series.value_counts()]: each distinct value with the number of its
    rows, most frequent first. *)
Definition value_counts (col : list text) : list (text * nat) :=
  sort_desc (tally col).

Definition float_of_nat (n : nat) : float :=
  PrimFloat.of_uint63 (Uint63.of_Z (Z.of_nat n)).

(** [(count / total) * 100] in binary64, as pandas computes it. *)
Definition percent (count total : nat) : float :=
  PrimFloat.mul (PrimFloat.div (float_of_nat count) (float_of_nat total))
                (float_of_nat 100).

(** [(counts / total) * 100] on a series. *)
Definition percentages (counts : list (text * nat)) (total : nat)
  : list (text * float) :=
  map (fun e => (fst e, percent (snd e) total)) counts.

(** [df.explode(column)]: one row per element of each list; an empty
    list gives one row holding NaN. *)
Definition explode (col : list (list text)) : list (option text) :=
  flat_map (fun cell => match cell with
                        | [] => [None]
                        | _ :: _ => map Some cell
                        end) col.

Definition cell_eqb (a b : option text) : bool :=
  match a, b with
  | Some x, Some y => text_eqb x y
  | None, None => true
  | _, _ => false
  end.

(** [Series.unique()]: the distinct values in order of first appearance. *)
Fixpoint unique (col : list (option text)) : list (option text) :=
  match col with
  | [] => []
  | v :: col' => v :: filter (fun u => negb (cell_eqb v u)) (unique col')
  end.

(** [Series.dropna()] *)
Fixpoint dropna (col : list (option text)) : list text :=
  match col with
  | [] => []
  | Some v :: col' => v :: dropna col'
  | None :: col' => dropna col'
  end.

(** [Series.apply(f)] for a function on strings: [re.sub] raises
    [TypeError] on NaN. *)
Fixpoint apply (f : text -> text) (col : list (option text)) : M (list text) :=
  match col with
  | [] => ret []
  | Some v :: col' => rest <- apply f col' ;; ret (f v :: rest)
  | None :: _ => raise TypeError
  end.

End Pd.

(* ================================================================== *)
(** ** The four analyses *)

(** Drawing a figure and [plt.savefig]: succeeds or raises. *)
Definition savefig (w : world) (name : text) (fig : figure) : M unit :=
  if plot_ok w name then emit (Savefig name fig) else raise OSError.

Definition say (n : note) : M unit := emit (Print (Note n)).

Definition analyze_experience (w : world) (df : Df.frame) : M unit :=
  let experience_counts := Pd.value_counts (Df.experience df) in
  say (Counts_heading Experience) ;;;
  emit (Print (Counts experience_counts)) ;;;
  let total_exp_range := length (Df.experience df) in
  let experience_percentages :=
    Pd.percentages experience_counts total_exp_range in
  say (Percentages_heading Experience) ;;;
  emit (Print (Percentages experience_percentages)) ;;;
  let new_experience_counts :=
    firstn 10 (Pd.value_counts (Df.experience df)) in
  savefig w (t"experience_range.png") (Bar new_experience_counts) ;;;
  say (Plot_saved (t"experience_range.png")).

Definition analyze_salary (w : world) (df : Df.frame) : M unit :=
  let salaries_counts := Pd.value_counts (Df.salaries df) in
  say (Counts_heading Salary) ;;;
  emit (Print (Counts salaries_counts)) ;;;
  let total_salaries := length (Df.salaries df) in
  let salaries_percentages := Pd.percentages salaries_counts total_salaries in
  say (Percentages_heading Salary) ;;;
  emit (Print (Percentages salaries_percentages)) ;;;
  let new_salaries_counts := firstn 5 (Pd.value_counts (Df.salaries df)) in
  savefig w (t"salaries_range.png") (Bar new_salaries_counts) ;;;
  say (Plot_saved (t"salaries_range.png")).

(** The first half of [clean_and_analyze_locations]: the exploded
    location column after both substitutions. *)
Definition normalized_locations (df : Df.frame) : M (list text) :=
  let df_location := Pd.explode (Df.locations df) in
  df_location <- Pd.apply replace_location_patterns df_location ;;
  ret (map replace_common_locations df_location).

Definition clean_and_analyze_locations (w : world) (df : Df.frame) : M unit :=
  df_location <- normalized_locations df ;;
  let location_counts := Pd.value_counts df_location in
  say (Counts_heading Location) ;;;
  emit (Print (Counts location_counts)) ;;;
  let total_location := length df_location in
  let location_percentages := Pd.percentages location_counts total_location in
  say (Percentages_heading Location) ;;;
  emit (Print (Percentages location_percentages)) ;;;
  savefig w (t"job_location_counts.png") (Bar location_counts) ;;;
  say (Plot_saved (t"job_location_counts.png")) ;;;
  let location_string := Py.join (t", ") df_location in
  savefig w (t"location_wordcloud.png") (Cloud location_string) ;;;
  say (Plot_saved (t"location_wordcloud.png")).

(** [for value in distinct_skill: print(value)] *)
Fixpoint print_each (vs : list (option text)) : M unit :=
  match vs with
  | [] => ret tt
  | v :: vs' => emit (Print (Cell v)) ;;; print_each vs'
  end.

Definition analyze_skills (w : world) (df : Df.frame) : M unit :=
  let df_skills := Pd.explode (Df.skills df) in
  let distinct_skill := Pd.unique df_skills in
  say Distinct_heading ;;;
  print_each distinct_skill ;;;
  let skills_string := Py.join (t", ") (Pd.dropna df_skills) in
  savefig w (t"skills_wordcloud.png") (Cloud skills_string) ;;;
  say (Plot_saved (t"skills_wordcloud.png")).

(* ================================================================== *)
(** ** [main] *)

Definition to_csv (w : world) (df : Df.frame) : M unit :=
  if to_csv_ok w then ret tt else raise OSError.

(** The statements of the [try] block after [driver] has been bound. *)
Definition main_body (w : world) : M unit :=
  say Scraping_started ;;;
  jobs_data <- call scrape_naukri_jobs_f [VDriver; VInt num_pages]
                 (scrape_naukri_jobs w num_pages) VJobs ;;
  say Scraping_complete ;;;
  match Jobs.job_no jobs_data with
  | [] => say No_job_data                              (* return *)
  | _ :: _ =>
      df_raw <- call process_job_data_f [VJobs jobs_data]
                  (process_job_data jobs_data) VFrame ;;
      call to_csv_f [VFrame df_raw] (to_csv w df_raw) (fun _ => VNone) ;;;
      say Raw_data_saved ;;;
      say (Analyzing Experience) ;;;
      call (analyze_f Experience) [VFrame df_raw]
        (analyze_experience w df_raw) (fun _ => VNone) ;;;
      say (Analyzing Salary) ;;;
      call (analyze_f Salary) [VFrame df_raw]
        (analyze_salary w df_raw) (fun _ => VNone) ;;;
      say (Analyzing Location) ;;;
      call (analyze_f Location) [VFrame df_raw]
        (clean_and_analyze_locations w df_raw) (fun _ => VNone) ;;;
      say (Analyzing Skill) ;;;
      call (analyze_f Skill) [VFrame df_raw]
        (analyze_skills w df_raw) (fun _ => VNone) ;;;
      say Analysis_complete
  end.

(** [main]: the local variable [driver] is [None] until
    [initialize_driver] has returned; [except Exception] prints the error;
    [finally] quits the driver when the variable is bound. *)
Definition main (w : world) : list event :=
  let '(tr_init, started) := initialize_driver w in
  let '(driver, (tr_body, finished)) :=
    match started with
    | Return _ => (true, main_body w)
    | Raise e => (false, ([], Raise e))
    end in
  let handled :=
    match finished with
    | Return _ => []
    | Raise e => [Print (Note (Error_occurred e))]
    end in
  let finally :=
    if driver then [Quit; Print (Note WebDriver_closed)] else [] in
  tr_init ++ tr_body ++ handled ++ finally.

(* ================================================================== *)
(** ** What the scraper is expected to keep *)

Definition is_found {A} (l : lookup A) : bool :=
  match l with Found _ => true | _ => false end.

Definition is_missing {A} (l : lookup A) : bool :=
  match l with Missing => true | _ => false end.

(** Role, company, location and experience are all present. *)
Definition complete (job : job_tuple) : bool :=
  is_found (title job) && is_found (comp_name job)
  && is_found (loc_wrap job) && is_found (exp_wrap job).

(** One of the four is reported as not found. *)
Definition lacks_essential (job : job_tuple) : bool :=
  is_missing (title job) || is_missing (comp_name job)
  || is_missing (loc_wrap job) || is_missing (exp_wrap job).

Definition text_of (l : lookup text) : text :=
  match l with Found s => s | _ => [] end.

Definition salary_of (job : job_tuple) : text :=
  match sal_wrap job with e :: _ => e | [] => t"NA" end.

Definition skill_of (job : job_tuple) : text :=
  match tags_gt job with
  | Found lis => Py.join (t",") lis
  | _ => t"NA"
  end.

Definition is_broken {A} (l : lookup A) : bool :=
  match l with Broken => true | _ => false end.

(** No lookup on the element fails with an error other than "not found". *)
Definition no_error (job : job_tuple) : bool :=
  negb (is_broken (title job) || is_broken (comp_name job)
        || is_broken (loc_wrap job) || is_broken (exp_wrap job)
        || is_broken (tags_gt job)).

(** The complete tuples of the pages [pages], in page order. *)
Definition kept (w : world) (pages : list nat) : list job_tuple :=
  flat_map (fun i => match site w i with
                     | Some lst => filter complete lst
                     | None => []
                     end) pages.

(** The seven lists hold exactly one entry per tuple of [ks]. *)
Definition columns_of (jobs : Jobs.dict) (ks : list job_tuple) : Prop :=
  length (Jobs.job_no jobs) = length ks
  /\ Jobs.roles jobs = map (fun j => text_of (title j)) ks
  /\ Jobs.companies jobs = map (fun j => text_of (comp_name j)) ks
  /\ Jobs.locations jobs = map (fun j => text_of (loc_wrap j)) ks
  /\ Jobs.experience jobs = map (fun j => text_of (exp_wrap j)) ks
  /\ Jobs.salaries jobs = map salary_of ks
  /\ Jobs.skills jobs = map skill_of ks.

(* ================================================================== *)
(** ** Rows of the raw data and of the cleaned table *)

Record raw_row := mk_raw
  { raw_job_no : nat
  ; raw_role : text
  ; raw_company : text
  ; raw_location : text
  ; raw_experience : text
  ; raw_salary : text
  ; raw_skill : text }.

Record clean_row := mk_clean
  { row_job_no : text
  ; row_role : text
  ; row_company : text
  ; row_locations : list text
  ; row_experience : text
  ; row_salary : text
  ; row_skills : list text }.

(** Row [i] of the dictionary, when all seven lists reach that far. *)
Definition raw_row_at (j : Jobs.dict) (i : nat) : option raw_row :=
  match nth_error (Jobs.job_no j) i, nth_error (Jobs.roles j) i,
        nth_error (Jobs.companies j) i, nth_error (Jobs.locations j) i,
        nth_error (Jobs.experience j) i, nth_error (Jobs.salaries j) i,
        nth_error (Jobs.skills j) i with
  | Some n, Some r, Some c, Some l, Some e, Some s, Some k =>
      Some (mk_raw n r c l e s k)
  | _, _, _, _, _, _, _ => None
  end.

Definition row_at (df : Df.frame) (i : nat) : option clean_row :=
  match nth_error (Df.job_no df) i, nth_error (Df.roles df) i,
        nth_error (Df.companies df) i, nth_error (Df.locations df) i,
        nth_error (Df.experience df) i, nth_error (Df.salaries df) i,
        nth_error (Df.skills df) i with
  | Some n, Some r, Some c, Some l, Some e, Some s, Some k =>
      Some (mk_clean n r c l e s k)
  | _, _, _, _, _, _, _ => None
  end.

(** The cleaning of one row, field by field. *)
Definition clean (r : raw_row) : clean_row :=
  mk_clean
    (Py.lower (Py.str_of_nat (raw_job_no r)))
    (Py.lower (raw_role r))
    (Py.lower (raw_company r))
    (Py.split "," (Py.lower (raw_location r)))
    (Py.replace (t" yrs") [] (Py.lower (raw_experience r)))
    (Py.replace (t" lacs pa") [] (Py.lower (raw_salary r)))
    (Py.split "," (Py.lower (raw_skill r))).

(** [old] occurs in [s] at some position. *)
Fixpoint occurs (old s : text) : bool :=
  Py.startswith old s
  || match s with
     | [] => false
     | _ :: s' => occurs old s'
     end.

(* ================================================================== *)
(** ** Frequency tables *)

Definition text_dec : forall a b : text, {a = b} + {a <> b} :=
  list_eq_dec ascii_dec.

(** The number of rows of [col] holding exactly [v]. *)
Definition occurrences (v : text) (col : list text) : nat :=
  count_occ text_dec col v.

(** [c] lists every distinct value of [col] once, with its number of rows. *)
Definition is_frequency_table (c : list (text * nat)) (col : list text)
  : Prop :=
  NoDup (map fst c)
  /\ (forall v, In v (map fst c) <-> In v col)
  /\ Forall (fun e => snd e = occurrences (fst e) col) c.

(** The count recorded for [v] in a table, 0 when it has no entry. *)
Fixpoint get (v : text) (tbl : list (text * nat)) : nat :=
  match tbl with
  | [] => 0
  | (k, n) :: tbl' => if text_eqb k v then n else get v tbl'
  end.

Definition sum_counts (c : list (text * nat)) : nat :=
  list_sum (map snd c).

(** The share [count / total * 100] as an exact fraction. *)
Definition share (count total : nat) : Q :=
  (Z.of_nat count # Pos.of_nat total) * (100 # 1).

Definition sum_shares (c : list (text * nat)) (total : nat) : Q :=
  fold_right (fun e acc => share (snd e) total + acc)%Q (0 # 1) c.

(** The sum of binary64 numbers, added from the left. *)
Definition float_sum (xs : list float) : float :=
  fold_left PrimFloat.add xs PrimFloat.zero.

(** The exact value of a finite binary64 number. *)
Definition exact (x : float) : Q :=
  match Prim2SF x with
  | S754_finite neg m e =>
      ((if neg then Z.neg m else Z.pos m) # 1) * Qpower (2 # 1) e
  | _ => 0 # 1
  end.

Definition exact_sum (xs : list float) : Q :=
  fold_right (fun x acc => exact x + acc)%Q (0 # 1) xs.

(** What a trace shows of the two kinds of series. *)
Definition printed_counts (tr : list event) : list (list (text * nat)) :=
  flat_map (fun e => match e with Print (Counts c) => [c] | _ => [] end) tr.

Definition printed_percentages (tr : list event) : list (list (text * float)) :=
  flat_map (fun e => match e with Print (Percentages p) => [p] | _ => [] end)
           tr.

(** [p] gives, for every distinct value of [col], its number of rows
    divided by the number of all rows, times 100, in binary64; the exact
    shares add up to 100 unless the column is empty. *)
Definition is_percentage_table (p : list (text * float)) (col : list text)
  : Prop :=
  exists c,
    is_frequency_table c col
    /\ p = map (fun e => (fst e,
                          Pd.percent (occurrences (fst e) col) (length col))) c
    /\ sum_counts c = length col
    /\ match col with
       | [] => True
       | _ :: _ => (sum_shares c (length col) == 100 # 1)%Q
       end.

(* ================================================================== *)
(** ** Reading a trace *)

(** The events a callee of [main] can log. *)
Definition inner (e : event) : bool :=
  match e with
  | Get _ | Print _ | Savefig _ _ => true
  | _ => false
  end.

Definition opened (tr : list event) : nat :=
  length (filter (fun e => match e with Open => true | _ => false end) tr).

Definition closed (tr : list event) : nat :=
  length (filter (fun e => match e with Quit => true | _ => false end) tr).

Definition is_call_event (e : event) : bool :=
  match e with
  | Call _ _ | Ret _ _ | Exc _ _ => true
  | _ => false
  end.

(** The calls and returns of a trace, in order. *)
Definition skeleton (tr : list event) : list event := filter is_call_event tr.

Definition field_eqb (a b : field) : bool :=
  match a, b with
  | Experience, Experience | Salary, Salary
  | Location, Location | Skill, Skill => true
  | _, _ => false
  end.

Definition func_eqb (f g : func) : bool :=
  match f, g with
  | scrape_naukri_jobs_f, scrape_naukri_jobs_f
  | process_job_data_f, process_job_data_f
  | to_csv_f, to_csv_f => true
  | analyze_f a, analyze_f b => field_eqb a b
  | _, _ => false
  end.

(** One stage of a run: the function, its arguments, how it ended. *)
Definition stage : Type := func * list value * outcome value.

(** A skeleton in which every call has ended before the next begins reads
    as a list of stages; any other skeleton does not. *)
Fixpoint stages (sk : list event) : option (list stage) :=
  match sk with
  | [] => Some []
  | Call f args :: Ret g v :: rest =>
      if func_eqb f g
      then option_map (cons (f, args, Return v)) (stages rest)
      else None
  | Call f args :: Exc g e :: rest =>
      if func_eqb f g
      then option_map (cons (f, args, Raise e)) (stages rest)
      else None
  | _ => None
  end.

(** The pipeline when nothing raises, for scraped data [j] and table [df]. *)
Definition ideal (j : Jobs.dict) (df : Df.frame) : list stage :=
  [ (scrape_naukri_jobs_f, [VDriver; VInt num_pages], Return (VJobs j))
  ; (process_job_data_f, [VJobs j], Return (VFrame df))
  ; (to_csv_f, [VFrame df], Return VNone)
  ; (analyze_f Experience, [VFrame df], Return VNone)
  ; (analyze_f Salary, [VFrame df], Return VNone)
  ; (analyze_f Location, [VFrame df], Return VNone)
  ; (analyze_f Skill, [VFrame df], Return VNone) ].

(** A run of the pipeline: the first [k] stages of the ideal run, after
    which it either stops or the next stage raises. *)
Definition pipeline_run (rs : list stage) : Prop :=
  exists j df k,
    rs = firstn k (ideal j df)
    \/ exists f args v e,
         nth_error (ideal j df) k = Some (f, args, Return v)
         /\ rs = firstn k (ideal j df) ++ [(f, args, Raise e)].

(** Every stage is called on what the stage before it returned. *)
Fixpoint chained (rs : list stage) : Prop :=
  match rs with
  | (_, _, Return v) :: (((_, args, _) :: _) as rest) =>
      args = [v] /\ chained rest
  | _ => True
  end.

(** The events between the call of [f] and its end. *)
Fixpoint until_end (f : func) (tr : list event) : list event :=
  match tr with
  | [] => []
  | Ret g _ :: tr' | Exc g _ :: tr' =>
      if func_eqb f g then [] else until_end f tr'
  | e :: tr' => e :: until_end f tr'
  end.

Fixpoint inside (f : func) (tr : list event) : list event :=
  match tr with
  | [] => []
  | Call g _ :: tr' => if func_eqb f g then until_end f tr' else inside f tr'
  | _ :: tr' => inside f tr'
  end.

Definition saved_files (tr : list event) : list text :=
  flat_map (fun e => match e with Savefig name _ => [name] | _ => [] end) tr.

Definition printed_cells (tr : list event) : list (option text) :=
  flat_map (fun e => match e with Print (Cell v) => [v] | _ => [] end) tr.

Definition clouds (tr : list event) : list text :=
  flat_map (fun e => match e with Savefig _ (Cloud s) => [s] | _ => [] end) tr.

(* ================================================================== *)
(** ** Sample data *)

Definition job1 : job_tuple :=
  mk_job (Found (t"SDET II")) (Found (t"Acme"))
         (Found (t"Hybrid - New Delhi, Navi Mumbai (All Areas)"))
         (Found (t"3-5 Yrs")) [t"10-15 Lacs PA"]
         (Found [t"Manual Testing"; t"Java"]).

Definition job2 : job_tuple :=
  mk_job (Found (t"QA Engineer")) Missing (Found (t"Pune"))
         (Found (t"1-2 Yrs")) [] Missing.

Definition job3 : job_tuple :=
  mk_job (Found (t"Tester")) (Found (t"Initech"))
         (Found (t"Bangalore/Bengaluru")) (Found (t"1-2 Yrs")) [] Missing.

Definition job4 : job_tuple :=
  mk_job (Found (t"Lead")) (Found (t"Globex"))
         (Found (t"Noida")) (Found (t"5-8 Yrs")) [] (Found []).

(** A run in which every library call succeeds. *)
Definition world1 : world :=
  mk_world true true (fun _ => Some [job1; job2; job3; job4]) true
           (fun _ => true).

(** The browser window cannot be maximised. *)
Definition world_no_maximize : world :=
  mk_world true false (fun _ => Some [job1]) true (fun _ => true).

(** The browser does not start. *)
Definition world_no_chrome : world :=
  mk_world false true (fun _ => Some [job1]) true (fun _ => true).

Definition jobs1 : Jobs.dict :=
  Jobs.mk [1; 3; 4]
    [t"SDET II"; t"Tester"; t"Lead"]
    [t"Acme"; t"Initech"; t"Globex"]
    [t"Hybrid - New Delhi, Navi Mumbai (All Areas)"; t"Bangalore/Bengaluru";
     t"Noida"]
    [t"3-5 Yrs"; t"1-2 Yrs"; t"5-8 Yrs"]
    [t"10-15 Lacs PA"; t"NA"; t"NA"]
    [t"Manual Testing,Java"; t"NA"; t""].

Definition df1 : Df.frame :=
  Df.mk [t"1"; t"3"; t"4"]
    [t"sdet ii"; t"tester"; t"lead"]
    [t"acme"; t"initech"; t"globex"]
    [[t"hybrid - new delhi"; t" navi mumbai (all areas)"];
     [t"bangalore/bengaluru"]; [t"noida"]]
    [t"3-5"; t"1-2"; t"5-8"]
    [t"10-15"; t"na"; t"na"]
    [[t"manual testing"; t"java"]; [t"na"]; [t""]].

(* ================================================================== *)
(** ** Notions used in the statements and proofs *)

Definition callee_event (e : event) : Prop := inner e = true.

Definition body_event (e : event) : Prop :=
  inner e || is_call_event e = true.

Definition all_succeeds (w : world) : Prop :=
  chrome_starts w = true /\ maximize_ok w = true
  /\ to_csv_ok w = true /\ forall name, plot_ok w name = true.

(** The normalisation of one exploded location entry. *)
Definition normalize (s : text) : text :=
  replace_common_locations (replace_location_patterns s).

(** The length of the run of whitespace at the front. *)
Fixpoint space_run (s : text) : nat :=
  match s with
  | c :: s' => if Py.isspace c then S (space_run s') else 0
  | [] => 0
  end.

(** A word holding [x] becomes [repl]; any other word stays. *)
Definition swap_word (x repl w : text) : text :=
  if occurs x w then repl else w.

Definition flush (f : text -> text) (acc : text) : text :=
  match acc with [] => [] | _ :: _ => f acc end.

(** [f] applied to every maximal run of word characters of [s]; [acc] is
    the part of the current word that has been read. *)
Fixpoint map_words (f : text -> text) (acc s : text) : text :=
  match s with
  | [] => flush f acc
  | c :: s' =>
      if isword c then map_words f (acc ++ [c]) s'
      else flush f acc ++ c :: map_words f [] s'
  end.

Definition lit_nodes (x : text) : regex := map (fun c => One (Lit c)) x.

Definition wordy (s : text) : Prop := Forall (fun c => isword c = true) s.

Definition blank (s : text) : Prop := Forall (fun c => Py.isspace c = true) s.

(** Nothing to strip at either end. *)
Definition trimmed (s : text) : Prop := Py.lstrip s = s /\ Py.rstrip s = s.

Definition nonword (s : text) : Prop := Forall (fun c => isword c = false) s.

(** [f] sends words to words. *)
Definition keeps_words (f : text -> text) : Prop :=
  forall w, w <> [] -> wordy w -> f w <> [] /\ wordy (f w).

(** What the four replacements do to one word, in the order of the
    dictionary. *)
Definition rename (w : text) : text :=
  swap_word (t"noida") (t"noida")
    (swap_word (t"bangal") (t"bengaluru")
       (swap_word (t"delhi") (t"delhi")
          (swap_word (t"mumbai") (t"mumbai") w))).

(** The job numbers given to the complete tuples of one page, from
    position [index] on: [i * len(lst) + index + 1]. *)
Fixpoint numbers (i len index : nat) (lst : list job_tuple) : list nat :=
  match lst with
  | [] => []
  | job :: rest =>
      (if complete job then [i * len + index + 1] else [])
      ++ numbers i len (S index) rest
  end.

Definition numbers_of_pages (w : world) (pages : list nat) : list nat :=
  flat_map (fun i => match site w i with
                     | Some lst => numbers i (length lst) 0 lst
                     | None => []
                     end) pages.

(** The only exception a computation can end with is
    [WebDriverException]. *)
Definition raises_only_webdriver {A} (m : M A) : Prop :=
  match result m with
  | Raise e => e = WebDriverException
  | Return _ => True
  end.

(** A text without a comma. *)
Definition comma_free (s : text) : Prop := ~ In ","%char s.

Definition is_digit (c : ascii) : bool := Py.between 48 57 c.

(** The part of a text before its first slash. *)
Fixpoint before_slash (s : text) : text :=
  match s with
  | [] => []
  | c :: s' => if Ascii.eqb "/" c then [] else c :: before_slash s'
  end.

(** Neither whitespace nor a slash. *)
Definition plain_char (c : ascii) : Prop :=
  Py.isspace c = false /\ c <> "/"%char.

(** The text after the first three substitutions of
    [replace_location_patterns]. *)
Definition after_three (s : text) : text :=
  fold_left (fun loc pattern => sub pattern [] loc)
            (firstn 3 location_patterns) s.

(** The word that [replace_common_locations] puts for a word [w]: the
    first name of the dictionary that [w] holds decides. *)
Definition common_name (w : text) : text :=
  if occurs (t"mumbai") w then t"mumbai"
  else if occurs (t"delhi") w then t"delhi"
  else if occurs (t"bangal") w then t"bengaluru"
  else if occurs (t"noida") w then t"noida"
  else w.

(** [a] is counted at least as often as [b]. *)
Definition at_least (a b : text * nat) : Prop := snd b <= snd a.

(** The image files of the script, in the order in which they are saved. *)
Definition plot_files : list text :=
  [ t"experience_range.png"; t"salaries_range.png"
  ; t"job_location_counts.png"; t"location_wordcloud.png"
  ; t"skills_wordcloud.png" ].

(** The three messages with which a run can end. *)
Definition verdict (e : event) : list note :=
  match e with
  | Print (Note Analysis_complete) => [Analysis_complete]
  | Print (Note No_job_data) => [No_job_data]
  | Print (Note (Error_occurred x)) => [Error_occurred x]
  | _ => []
  end.

Definition verdicts (tr : list event) : list note := flat_map verdict tr.

Definition saved_file (e : event) : list text :=
  match e with Savefig name _ => [name] | _ => [] end.

(** What a projection [proj] shows of the [try] block of [main] together
    with the message of its [except] clause. *)
Definition observed {X} (proj : event -> list X) (m : M unit) : list X :=
  flat_map proj (trace m)
  ++ match result m with
     | Return _ => []
     | Raise e => proj (Print (Note (Error_occurred e)))
     end.

(** A page on which no job element shows all four essentials. *)
Definition world_nothing : world :=
  mk_world true true (fun _ => Some [job2]) true (fun _ => true).

(* ================================================================== *)
(** * Properties *)

(** ** The monad *)

Lemma bind_returns {A B} (m : M A) (k : A -> M B) (b : B) :
  result (bind m k) = Return b ->
  exists a, result m = Return a /\ result (k a) = Return b.
Proof.
  destruct m as [tr [a | e]]; unfold bind; simpl.
  - destruct (k a) as [tr' r] eqn:E. simpl. intros ->.
    exists a. rewrite E. auto.
  - discriminate.
Qed.

Lemma trace_bind {A B} (m : M A) (k : A -> M B) :
  trace (bind m k)
  = trace m ++ match result m with
               | Return a => trace (k a)
               | Raise _ => []
               end.
Proof.
  destruct m as [tr [a | e]]; unfold bind; simpl.
  - now destruct (k a).
  - now rewrite app_nil_r.
Qed.

Lemma result_bind {A B} (m : M A) (k : A -> M B) :
  result (bind m k)
  = match result m with
    | Return a => result (k a)
    | Raise e => Raise e
    end.
Proof.
  destruct m as [tr [a | e]]; unfold bind; simpl; [now destruct (k a) | auto].
Qed.

Lemma trace_call {A} f args (body : M A) val :
  trace (call f args body val)
  = Call f args :: trace body
    ++ [match result body with
        | Return a => Ret f (val a)
        | Raise e => Exc f e
        end].
Proof. destruct body as [tr [a | e]]; reflexivity. Qed.

Lemma result_call {A} f args (body : M A) val :
  result (call f args body val) = result body.
Proof. destruct body as [tr [a | e]]; reflexivity. Qed.

(** ** The scraper (C8) *)

Lemma columns_of_empty : columns_of Jobs.empty [].
Proof. repeat split. Qed.

Lemma columns_of_same_length jobs ks :
  columns_of jobs ks -> same_length jobs = true.
Proof.
  intros (H0 & H1 & H2 & H3 & H4 & H5 & H6). unfold same_length.
  rewrite H1, H2, H3, H4, H5, H6, H0, !length_map, !Nat.eqb_refl.
  reflexivity.
Qed.

(** One job element: skipped when an essential field is missing, one
    entry in every list when the four are there. *)
Lemma scrape_job_step jobs ks jobno job jobs' :
  columns_of jobs ks ->
  result (scrape_job jobs jobno job) = Return jobs' ->
  columns_of jobs' (ks ++ if complete job then [job] else []).
Proof.
  intros (H0 & H1 & H2 & H3 & H4 & H5 & H6).
  unfold scrape_job, complete, skill_of.
  destruct job as [ti co lo ex sa ta]; simpl.
  destruct ti, co, lo, ex, ta; cbv [bind try_except find_element ret raise];
    simpl; intros E;
    try discriminate; injection E as <-;
    unfold columns_of; simpl; rewrite ?app_nil_r, ?map_app, ?length_app;
    simpl; rewrite ?H0, ?H1, ?H2, ?H3, ?H4, ?H5, ?H6; repeat split.
Qed.

Lemma scrape_tuples_step i len lst : forall index jobs ks jobs',
  columns_of jobs ks ->
  result (scrape_tuples i len index lst jobs) = Return jobs' ->
  columns_of jobs' (ks ++ filter complete lst).
Proof.
  induction lst as [| job rest IH]; simpl; intros index jobs ks jobs' H E.
  - injection E as <-. now rewrite app_nil_r.
  - apply bind_returns in E as (jobs1 & E1 & E2).
    pose proof (scrape_job_step _ _ _ _ _ H E1) as H1.
    specialize (IH _ _ _ _ H1 E2).
    rewrite <- app_assoc in IH.
    destruct (complete job); exact IH.
Qed.

Lemma scrape_pages_step w pages : forall jobs ks jobs',
  columns_of jobs ks ->
  result (scrape_pages w pages jobs) = Return jobs' ->
  columns_of jobs' (ks ++ kept w pages).
Proof.
  induction pages as [| i rest IH]; simpl; intros jobs ks jobs' H E.
  - injection E as <-. now rewrite app_nil_r.
  - apply bind_returns in E as ([] & _ & E).
    apply bind_returns in E as (lst & El & E).
    apply bind_returns in E as (jobs1 & E1 & E2).
    destruct (site w i) as [lst0 |]; [| discriminate].
    injection El as <-.
    pose proof (scrape_tuples_step _ _ _ _ _ _ _ H E1) as H1.
    specialize (IH _ _ _ H1 E2).
    now rewrite <- app_assoc in IH.
Qed.

Lemma scrape_job_skips jobs jobno job jobs' :
  lacks_essential job = true ->
  result (scrape_job jobs jobno job) = Return jobs' ->
  jobs' = jobs.
Proof.
  unfold scrape_job, lacks_essential.
  destruct job as [ti co lo ex sa ta]; simpl.
  destruct ti, co, lo, ex; simpl; try discriminate;
    cbv [bind try_except find_element ret raise]; simpl;
    intros _ E; try discriminate; now injection E.
Qed.

Lemma scrape_job_appends jobs jobno job jobs' :
  complete job = true ->
  result (scrape_job jobs jobno job) = Return jobs' ->
  jobs' = Jobs.mk (Jobs.job_no jobs ++ [jobno])
            (Jobs.roles jobs ++ [text_of (title job)])
            (Jobs.companies jobs ++ [text_of (comp_name job)])
            (Jobs.locations jobs ++ [text_of (loc_wrap job)])
            (Jobs.experience jobs ++ [text_of (exp_wrap job)])
            (Jobs.salaries jobs ++ [salary_of job])
            (Jobs.skills jobs ++ [skill_of job]).
Proof.
  unfold scrape_job, complete, skill_of, salary_of.
  destruct job as [ti co lo ex sa ta]; simpl.
  destruct ti, co, lo, ex; simpl; try discriminate.
  intros _. destruct ta; cbv [bind try_except find_element ret raise]; simpl;
    intros E; try discriminate; now injection E.
Qed.

(** The scraper does return when every page loads and no lookup fails
    with an error other than "not found". *)
Lemma scrape_job_returns jobs jobno job :
  no_error job = true ->
  exists jobs', result (scrape_job jobs jobno job) = Return jobs'.
Proof.
  unfold scrape_job, no_error.
  destruct job as [ti co lo ex sa ta]; simpl.
  destruct ti, co, lo, ex, ta; simpl; try discriminate; intros _;
    eexists; reflexivity.
Qed.

Lemma scrape_tuples_returns i len lst : forall index jobs,
  Forall (fun job => no_error job = true) lst ->
  exists jobs', result (scrape_tuples i len index lst jobs) = Return jobs'.
Proof.
  induction lst as [| job rest IH]; simpl; intros index jobs H.
  - eexists. reflexivity.
  - inversion H as [| ? ? Hj Hrest]; subst.
    destruct (scrape_job_returns jobs (i * len + index + 1) job Hj)
      as [jobs1 E1].
    rewrite result_bind, E1. now apply IH.
Qed.

Lemma scrape_pages_returns w pages : forall jobs,
  Forall (fun i => exists lst,
            site w i = Some lst
            /\ Forall (fun job => no_error job = true) lst) pages ->
  exists jobs', result (scrape_pages w pages jobs) = Return jobs'.
Proof.
  induction pages as [| i rest IH]; simpl; intros jobs H.
  - eexists. reflexivity.
  - inversion H as [| ? ? (lst & Hs & Hl) Hrest]; subst.
    rewrite result_bind. cbn [emit result snd]. rewrite Hs, result_bind.
    cbn [ret result snd].
    destruct (scrape_tuples_returns i (length lst) lst 0 jobs Hl)
      as [jobs1 E1].
    rewrite result_bind, E1. now apply IH.
Qed.

(** C8.  Whenever [scrape_naukri_jobs] returns its dictionary, the seven
    lists have one length, the number of job elements that show role,
    company, location and experience; each such element gives one entry to
    every list, with ['NA'] for an absent salary or skills block; an
    element reported to lack one of the four essentials leaves the
    dictionary as it was. *)
Theorem scrape_lists_equal_length (w : world) (n : nat) (jobs : Jobs.dict) :
  result (scrape_naukri_jobs w n) = Return jobs ->
  let ks := kept w (seq 0 n) in
  (length (Jobs.job_no jobs) = length ks
   /\ length (Jobs.roles jobs) = length ks
   /\ length (Jobs.companies jobs) = length ks
   /\ length (Jobs.locations jobs) = length ks
   /\ length (Jobs.experience jobs) = length ks
   /\ length (Jobs.salaries jobs) = length ks
   /\ length (Jobs.skills jobs) = length ks)
  /\ columns_of jobs ks
  /\ (forall j, In j ks -> sal_wrap j = [] -> salary_of j = t"NA")
  /\ (forall j, In j ks -> tags_gt j = Missing -> skill_of j = t"NA")
  /\ (forall acc jobno job acc',
        result (scrape_job acc jobno job) = Return acc' ->
        (lacks_essential job = true -> acc' = acc)
        /\ (complete job = true ->
            length (Jobs.job_no acc') = S (length (Jobs.job_no acc))
            /\ length (Jobs.roles acc') = S (length (Jobs.roles acc))
            /\ length (Jobs.companies acc') = S (length (Jobs.companies acc))
            /\ length (Jobs.locations acc') = S (length (Jobs.locations acc))
            /\ length (Jobs.experience acc') = S (length (Jobs.experience acc))
            /\ length (Jobs.salaries acc') = S (length (Jobs.salaries acc))
            /\ length (Jobs.skills acc') = S (length (Jobs.skills acc)))).
Proof.
  intros E ks.
  pose proof (scrape_pages_step w (seq 0 n) _ [] _ columns_of_empty E) as H.
  simpl in H. fold ks in H.
  split; [| split; [exact H | split; [| split]]].
  - destruct H as (H0 & H1 & H2 & H3 & H4 & H5 & H6).
    rewrite H1, H2, H3, H4, H5, H6, !length_map. auto 10.
  - intros j _ Hs. unfold salary_of. now rewrite Hs.
  - intros j _ Hs. unfold skill_of. now rewrite Hs.
  - intros acc jobno job acc' Ej. split.
    + intros Hl. eapply scrape_job_skips; eauto.
    + intros Hc. rewrite (scrape_job_appends _ _ _ _ Hc Ej). simpl.
      rewrite !length_app. simpl. lia.
Qed.

(** ** Cleaning (C6) *)

Lemma startswith_app old rest : Py.startswith old (old ++ rest) = true.
Proof.
  induction old as [| a old IH]; simpl; [reflexivity |].
  now rewrite Ascii.eqb_refl, IH.
Qed.

(** Where [old] does not occur, [replace] changes nothing. *)
Lemma replace_from_absent old new s :
  occurs old s = false -> Py.replace_from old new 0 s = s.
Proof.
  induction s as [| c s IH]; [reflexivity |].
  cbn [occurs]. intros H. apply orb_false_iff in H as [H1 H2].
  cbn [Py.replace_from]. rewrite H1. f_equal. auto.
Qed.

Lemma replace_from_skip old new rest : forall (gone : text),
  Py.replace_from old new (length gone) (gone ++ rest)
  = Py.replace_from old new 0 rest.
Proof.
  induction gone as [| c gone IH]; [reflexivity |].
  simpl. destruct rest; simpl in *; exact IH || (rewrite IH; reflexivity).
Qed.

(** An occurrence at the front is replaced and the scan goes on behind it. *)
Lemma replace_from_front a old new rest :
  Py.replace_from (a :: old) new 0 ((a :: old) ++ rest)
  = new ++ Py.replace_from (a :: old) new 0 rest.
Proof.
  cbn [app Py.replace_from].
  change (Py.startswith (a :: old) (a :: old ++ rest))
    with (Py.startswith (a :: old) ((a :: old) ++ rest)).
  rewrite startswith_app. f_equal.
  replace (length (a :: old) - 1) with (length old) by (simpl; lia).
  apply replace_from_skip.
Qed.

(** A character at which no occurrence starts is copied. *)
Lemma replace_from_copy old new c s :
  Py.startswith old (c :: s) = false ->
  Py.replace_from old new 0 (c :: s) = c :: Py.replace_from old new 0 s.
Proof. intros H. cbn [Py.replace_from]. now rewrite H. Qed.

Lemma lower_no_capital (s : text) :
  Forall (fun c => Py.between 65 90 c = false) (Py.lower s).
Proof.
  unfold Py.lower. apply Forall_forall. intros c Hc.
  apply in_map_iff in Hc as (d & <- & _).
  destruct d as [[] [] [] [] [] [] [] []]; reflexivity.
Qed.

Lemma split_not_empty sep s : Py.split sep s <> [].
Proof.
  destruct s as [| c s]; simpl; [discriminate |].
  destruct (Ascii.eqb c sep); [discriminate |].
  destruct (Py.split sep s); discriminate.
Qed.

Lemma join_cons sep p q ps :
  Py.join sep (p :: q :: ps) = p ++ sep ++ Py.join sep (q :: ps).
Proof. reflexivity. Qed.

(** Joining the pieces with the separator gives the text back. *)
Lemma join_split sep s : Py.join [sep] (Py.split sep s) = s.
Proof.
  induction s as [| c s IH]; [reflexivity |].
  cbn [Py.split]. pose proof (split_not_empty sep s) as Hn.
  destruct (Py.split sep s) as [| w ws]; [contradiction |].
  destruct (Ascii.eqb_spec c sep) as [-> | Hne].
  - rewrite join_cons, IH. reflexivity.
  - destruct ws as [| w' ws].
    + simpl in *. now rewrite IH.
    + rewrite join_cons in *. rewrite <- IH. reflexivity.
Qed.

(** No piece holds the separator. *)
Lemma split_pieces sep s :
  Forall (fun w => ~ In sep w) (Py.split sep s).
Proof.
  induction s as [| c s IH]; simpl.
  - constructor; auto.
  - destruct (Ascii.eqb_spec c sep) as [-> | Hne].
    + constructor; auto.
    + destruct (Py.split sep s) as [| w ws]; [constructor; auto |].
      * intros [H | []]. congruence.
      * inversion IH; subst. constructor; auto.
        intros [H | H]; [congruence | contradiction].
Qed.


(** ** Frequency counting (C7, C3) *)

Lemma text_eqb_spec a b : reflect (a = b) (text_eqb a b).
Proof. unfold text_eqb. destruct (list_eq_dec ascii_dec a b); now constructor. Qed.

Lemma get_bump v u tbl :
  get v (Pd.bump u tbl) = (if text_eqb u v then 1 else 0) + get v tbl.
Proof.
  induction tbl as [| [k n] tbl IH]; simpl.
  - destruct (text_eqb u v); reflexivity.
  - destruct (text_eqb_spec k u) as [-> | Hku]; simpl.
    + destruct (text_eqb u v); reflexivity.
    + destruct (text_eqb_spec k v) as [-> | Hkv]; [| exact IH].
      destruct (text_eqb_spec u v); [congruence | reflexivity].
Qed.

Lemma keys_bump k u tbl :
  In k (map fst (Pd.bump u tbl)) <-> k = u \/ In k (map fst tbl).
Proof.
  induction tbl as [| [k' n] tbl IH]; simpl.
  - intuition.
  - destruct (text_eqb_spec k' u) as [-> | Hne]; simpl; intuition.
Qed.

Lemma NoDup_bump u tbl :
  NoDup (map fst tbl) -> NoDup (map fst (Pd.bump u tbl)).
Proof.
  induction tbl as [| [k n] tbl IH]; simpl; intros H.
  - constructor; [intros [] | constructor].
  - inversion H as [| ? ? Hk Hnd]; subst.
    destruct (text_eqb_spec k u) as [-> | Hne]; simpl.
    + now constructor.
    + constructor; [| auto].
      rewrite keys_bump. intros [-> | Hin]; contradiction.
Qed.

Lemma positive_bump u tbl :
  Forall (fun e => 1 <= snd e) tbl ->
  Forall (fun e => 1 <= snd e) (Pd.bump u tbl).
Proof.
  induction tbl as [| [k n] tbl IH]; simpl; intros H.
  - repeat constructor.
  - inversion H; subst. destruct (text_eqb k u); constructor; simpl in *; auto.
Qed.

Lemma sum_bump u tbl : sum_counts (Pd.bump u tbl) = S (sum_counts tbl).
Proof.
  unfold sum_counts.
  induction tbl as [| [k n] tbl IH]; simpl; [reflexivity |].
  destruct (text_eqb k u); simpl; [reflexivity | rewrite IH; lia].
Qed.

Lemma get_entry v n tbl :
  NoDup (map fst tbl) -> In (v, n) tbl -> get v tbl = n.
Proof.
  induction tbl as [| [k m] tbl IH]; simpl; intros Hnd Hin; [contradiction |].
  destruct Hin as [Hin | Hin].
  - injection Hin as -> ->. destruct (text_eqb_spec v v); congruence.
  - inversion Hnd as [| ? ? Hk Hnd']; subst.
    destruct (text_eqb_spec k v) as [-> | Hne]; [| auto].
    exfalso. apply Hk. now apply (in_map fst) in Hin.
Qed.

Lemma get_positive v tbl :
  Forall (fun e => 1 <= snd e) tbl ->
  (In v (map fst tbl) <-> 1 <= get v tbl).
Proof.
  induction tbl as [| [k n] tbl IH]; simpl; intros H.
  - split; [intros [] | lia].
  - inversion H as [| ? ? Hn Hrest]; subst. simpl in Hn.
    destruct (text_eqb_spec k v) as [-> | Hne].
    + split; auto.
    + rewrite <- (IH Hrest). split; [intros [? | ?]; [contradiction | auto] | auto].
Qed.

(** The invariant of the counting loop. *)
Lemma tally_loop col : forall tbl,
  let out := fold_left (fun tbl v => Pd.bump v tbl) col tbl in
  (NoDup (map fst tbl) -> NoDup (map fst out))
  /\ (Forall (fun e => 1 <= snd e) tbl -> Forall (fun e => 1 <= snd e) out)
  /\ (forall v, get v out = occurrences v col + get v tbl)
  /\ sum_counts out = length col + sum_counts tbl.
Proof.
  induction col as [| u col IH]; intros tbl; simpl.
  - repeat split; auto.
  - destruct (IH (Pd.bump u tbl)) as (H1 & H2 & H3 & H4).
    repeat split.
    + intros H. apply H1, NoDup_bump, H.
    + intros H. apply H2, positive_bump, H.
    + intros v. rewrite H3, get_bump. unfold occurrences. simpl.
      destruct (text_dec u v) as [-> | Hne].
      * destruct (text_eqb_spec v v); [lia | congruence].
      * destruct (text_eqb_spec u v); [congruence | lia].
    + rewrite H4, sum_bump. lia.
Qed.

Lemma tally_is_frequency_table col : is_frequency_table (Pd.tally col) col.
Proof.
  destruct (tally_loop col []) as (H1 & H2 & H3 & _).
  fold (Pd.tally col) in *. simpl in *.
  specialize (H1 (NoDup_nil _)). specialize (H2 (Forall_nil _)).
  repeat split.
  - exact H1.
  - intros Hin. apply (get_positive _ _ H2) in Hin.
    rewrite H3, Nat.add_0_r in Hin.
    apply (count_occ_In text_dec). exact Hin.
  - intros Hin. apply (get_positive _ _ H2).
    rewrite H3, Nat.add_0_r.
    apply (count_occ_In text_dec) in Hin. exact Hin.
  - apply Forall_forall. intros [v n] Hin. simpl.
    rewrite <- (get_entry _ _ _ H1 Hin), H3. lia.
Qed.

Lemma insert_desc_perm e tbl : Permutation (Pd.insert_desc e tbl) (e :: tbl).
Proof.
  induction tbl as [| x tbl IH]; simpl; [reflexivity |].
  destruct (snd e <? snd x); [| reflexivity].
  rewrite IH. apply perm_swap.
Qed.

Lemma sort_desc_perm tbl : Permutation (Pd.sort_desc tbl) tbl.
Proof.
  induction tbl as [| e tbl IH]; simpl; [reflexivity |].
  rewrite insert_desc_perm. now constructor.
Qed.

Lemma frequency_table_perm c c' col :
  Permutation c c' -> is_frequency_table c col -> is_frequency_table c' col.
Proof.
  intros P (H1 & H2 & H3). repeat split.
  - eapply Permutation_NoDup; [apply Permutation_map, P | exact H1].
  - intros Hin. apply H2. eapply Permutation_in; [| exact Hin].
    apply Permutation_map. now symmetry.
  - intros Hin. eapply Permutation_in; [apply Permutation_map, P |].
    now apply H2.
  - eapply Permutation_Forall; eauto.
Qed.

Lemma value_counts_is_frequency_table col :
  is_frequency_table (Pd.value_counts col) col.
Proof.
  eapply frequency_table_perm; [| apply tally_is_frequency_table].
  symmetry. apply sort_desc_perm.
Qed.

Lemma sum_counts_perm c c' :
  Permutation c c' -> sum_counts c = sum_counts c'.
Proof.
  unfold sum_counts. induction 1; simpl; lia.
Qed.

Lemma value_counts_sum col : sum_counts (Pd.value_counts col) = length col.
Proof.
  unfold Pd.value_counts. rewrite (sum_counts_perm _ _ (sort_desc_perm _)).
  destruct (tally_loop col []) as (_ & _ & _ & H4).
  unfold Pd.tally. rewrite H4. unfold sum_counts. simpl. lia.
Qed.

Lemma sum_shares_total c n :
  (sum_shares c n == (Z.of_nat (sum_counts c) # Pos.of_nat n) * (100 # 1))%Q.
Proof.
  unfold sum_counts. induction c as [| e c IH]; simpl.
  - reflexivity.
  - rewrite IH. unfold share.
    rewrite <- Qmult_plus_distr_l, Qinv_plus_distr, Nat2Z.inj_add.
    reflexivity.
Qed.

Lemma full_share n :
  ((Z.of_nat (S n) # Pos.of_nat (S n)) * (100 # 1) == 100 # 1)%Q.
Proof.
  unfold Qeq, Qmult. cbn [Qnum Qden].
  rewrite <- Pos.of_nat_succ, !Pos2Z.inj_mul, Zpos_P_of_succ_nat. lia.
Qed.

Lemma percentages_table col :
  is_percentage_table
    (Pd.percentages (Pd.value_counts col) (length col)) col.
Proof.
  pose proof (value_counts_is_frequency_table col) as Hf.
  exists (Pd.value_counts col). repeat split; try apply Hf.
  - unfold Pd.percentages. apply map_ext_in. intros e He.
    destruct Hf as (_ & _ & Hc). rewrite Forall_forall in Hc.
    now rewrite (Hc e He).
  - apply value_counts_sum.
  - destruct col as [| v col]; [exact I |].
    rewrite sum_shares_total, value_counts_sum.
    change (length (v :: col)) with (S (length col)). apply full_share.
Qed.

(** ** What the analyses print *)

Lemma analyze_experience_trace w df :
  trace (analyze_experience w df)
  = [ Print (Note (Counts_heading Experience))
    ; Print (Counts (Pd.value_counts (Df.experience df)))
    ; Print (Note (Percentages_heading Experience))
    ; Print (Percentages (Pd.percentages (Pd.value_counts (Df.experience df))
                                         (length (Df.experience df)))) ]
    ++ (if plot_ok w (t"experience_range.png")
        then [ Savefig (t"experience_range.png")
                 (Bar (firstn 10 (Pd.value_counts (Df.experience df))))
             ; Print (Note (Plot_saved (t"experience_range.png"))) ]
        else []).
Proof.
  unfold analyze_experience, savefig, say, emit.
  destruct (plot_ok w _); reflexivity.
Qed.

Lemma analyze_salary_trace w df :
  trace (analyze_salary w df)
  = [ Print (Note (Counts_heading Salary))
    ; Print (Counts (Pd.value_counts (Df.salaries df)))
    ; Print (Note (Percentages_heading Salary))
    ; Print (Percentages (Pd.percentages (Pd.value_counts (Df.salaries df))
                                         (length (Df.salaries df)))) ]
    ++ (if plot_ok w (t"salaries_range.png")
        then [ Savefig (t"salaries_range.png")
                 (Bar (firstn 5 (Pd.value_counts (Df.salaries df))))
             ; Print (Note (Plot_saved (t"salaries_range.png"))) ]
        else []).
Proof.
  unfold analyze_salary, savefig, say, emit.
  destruct (plot_ok w _); reflexivity.
Qed.

Lemma apply_silent f col : trace (Pd.apply f col) = [].
Proof.
  induction col as [| [v |] col IH]; simpl; try reflexivity.
  destruct (Pd.apply f col) as [tr [r | e]]; simpl in *; subst; reflexivity.
Qed.

Lemma normalized_locations_silent df : trace (normalized_locations df) = [].
Proof.
  unfold normalized_locations.
  pose proof (apply_silent replace_location_patterns
                (Pd.explode (Df.locations df))) as H.
  destruct (Pd.apply _ _) as [tr [r | e]]; simpl in *; subst; reflexivity.
Qed.

Lemma clean_and_analyze_locations_trace w df :
  trace (clean_and_analyze_locations w df)
  = match result (normalized_locations df) with
    | Raise _ => []
    | Return locs =>
        [ Print (Note (Counts_heading Location))
        ; Print (Counts (Pd.value_counts locs))
        ; Print (Note (Percentages_heading Location))
        ; Print (Percentages (Pd.percentages (Pd.value_counts locs)
                                             (length locs))) ]
        ++ (if plot_ok w (t"job_location_counts.png")
            then [ Savefig (t"job_location_counts.png")
                     (Bar (Pd.value_counts locs))
                 ; Print (Note (Plot_saved (t"job_location_counts.png"))) ]
                 ++ (if plot_ok w (t"location_wordcloud.png")
                     then [ Savefig (t"location_wordcloud.png")
                              (Cloud (Py.join (t", ") locs))
                          ; Print (Note (Plot_saved
                                           (t"location_wordcloud.png"))) ]
                     else [])
            else [])
    end.
Proof.
  unfold clean_and_analyze_locations.
  pose proof (normalized_locations_silent df) as H.
  destruct (normalized_locations df) as [tr [locs | e]]; simpl in H; subst;
    [| reflexivity].
  unfold savefig, say, emit.
  destruct (plot_ok w (t"job_location_counts.png"));
    destruct (plot_ok w (t"location_wordcloud.png")); reflexivity.
Qed.

(** C7.  Each analysis that prints counts prints one series, and that
    series is the frequency table of its column: experience, salaries, and
    the normalised locations.  Every distinct value appears once, with the
    number of rows holding exactly that value. *)
Theorem printed_counts_are_frequencies (w : world) (df : Df.frame) :
  (exists c,
      printed_counts (trace (analyze_experience w df)) = [c]
      /\ is_frequency_table c (Df.experience df))
  /\ (exists c,
         printed_counts (trace (analyze_salary w df)) = [c]
         /\ is_frequency_table c (Df.salaries df))
  /\ match result (normalized_locations df) with
     | Return locs =>
         exists c,
           printed_counts (trace (clean_and_analyze_locations w df)) = [c]
           /\ is_frequency_table c locs
     | Raise _ =>
         printed_counts (trace (clean_and_analyze_locations w df)) = []
     end.
Proof.
  split; [| split].
  - eexists. split; [| apply value_counts_is_frequency_table].
    rewrite analyze_experience_trace. destruct (plot_ok w _); reflexivity.
  - eexists. split; [| apply value_counts_is_frequency_table].
    rewrite analyze_salary_trace. destruct (plot_ok w _); reflexivity.
  - rewrite clean_and_analyze_locations_trace.
    destruct (result (normalized_locations df)) as [locs | e]; [| reflexivity].
    eexists. split; [| apply value_counts_is_frequency_table].
    destruct (plot_ok w (t"job_location_counts.png"));
      destruct (plot_ok w (t"location_wordcloud.png")); reflexivity.
Qed.

(** C3, as the code has it.  Each analysis that prints percentages prints
    one series; the entry of every distinct value is its number of rows
    divided by the number of all rows of the column, times 100, computed in
    binary64.  The counts add up to the number of rows, so the exact
    shares add up to 100 for a column that is not empty. *)
Theorem printed_percentages_are_shares (w : world) (df : Df.frame) :
  (exists p,
      printed_percentages (trace (analyze_experience w df)) = [p]
      /\ is_percentage_table p (Df.experience df))
  /\ (exists p,
         printed_percentages (trace (analyze_salary w df)) = [p]
         /\ is_percentage_table p (Df.salaries df))
  /\ match result (normalized_locations df) with
     | Return locs =>
         exists p,
           printed_percentages (trace (clean_and_analyze_locations w df)) = [p]
           /\ is_percentage_table p locs
     | Raise _ =>
         printed_percentages (trace (clean_and_analyze_locations w df)) = []
     end.
Proof.
  split; [| split].
  - eexists. split; [| apply percentages_table].
    rewrite analyze_experience_trace. destruct (plot_ok w _); reflexivity.
  - eexists. split; [| apply percentages_table].
    rewrite analyze_salary_trace. destruct (plot_ok w _); reflexivity.
  - rewrite clean_and_analyze_locations_trace.
    destruct (result (normalized_locations df)) as [locs | e]; [| reflexivity].
    eexists. split; [| apply percentages_table].
    destruct (plot_ok w (t"job_location_counts.png"));
      destruct (plot_ok w (t"location_wordcloud.png")); reflexivity.
Qed.

(** ** Sample run *)

Example scrape_world1 :
  scrape_naukri_jobs world1 num_pages = ([Get 0], Return jobs1).
Proof. reflexivity. Qed.

Example process_jobs1 : process_job_data jobs1 = ([], Return df1).
Proof. reflexivity. Qed.

(** ** Traces of the callees *)

Section TraceInvariant.

Variable P : event -> Prop.

Lemma Forall_bind {A B} (m : M A) (k : A -> M B) :
  Forall P (trace m) ->
  (forall a, Forall P (trace (k a))) ->
  Forall P (trace (bind m k)).
Proof.
  intros Hm Hk. rewrite trace_bind. apply Forall_app. split; [exact Hm |].
  destruct (result m); [apply Hk | constructor].
Qed.

Lemma Forall_try_except {A} (body handler : M A) catch :
  Forall P (trace body) ->
  Forall P (trace handler) ->
  Forall P (trace (try_except body catch handler)).
Proof.
  destruct body as [tr [a | e]]; simpl; intros Hb Hh; [exact Hb |].
  destruct (catch e); [| exact Hb].
  destruct handler as [tr' r]. simpl in *. apply Forall_app. auto.
Qed.

Lemma Forall_ret {A} (a : A) : Forall P (trace (ret a)).
Proof. constructor. Qed.

Lemma Forall_raise {A} e : Forall P (trace (@raise A e)).
Proof. constructor. Qed.

Lemma Forall_emit e : P e -> Forall P (trace (emit e)).
Proof. intros H. simpl. auto. Qed.

End TraceInvariant.

Lemma find_element_trace {A} (l : lookup A) : trace (find_element l) = [].
Proof. destruct l; reflexivity. Qed.

Lemma scrape_job_trace jobs jobno job :
  Forall callee_event (trace (scrape_job jobs jobno job)).
Proof.
  unfold scrape_job.
  repeat first
    [ apply Forall_try_except | apply Forall_bind | intro
    | rewrite find_element_trace | apply Forall_ret | constructor ].
Qed.

Lemma scrape_tuples_trace i len lst : forall index jobs,
  Forall callee_event (trace (scrape_tuples i len index lst jobs)).
Proof.
  induction lst as [| job rest IH]; simpl; intros index jobs.
  - constructor.
  - apply Forall_bind; [apply scrape_job_trace | intro; apply IH].
Qed.

Lemma scrape_pages_trace w pages : forall jobs,
  Forall callee_event (trace (scrape_pages w pages jobs)).
Proof.
  induction pages as [| i rest IH]; simpl; intros jobs.
  - constructor.
  - apply Forall_bind; [apply Forall_emit; reflexivity | intros _].
    apply Forall_bind; [destruct (site w i); constructor | intros lst].
    apply Forall_bind; [apply scrape_tuples_trace | intro; apply IH].
Qed.

Lemma scrape_trace w n :
  Forall callee_event (trace (scrape_naukri_jobs w n)).
Proof. apply scrape_pages_trace. Qed.

Lemma process_trace jobs : trace (process_job_data jobs) = [].
Proof. unfold process_job_data. destruct (same_length jobs); reflexivity. Qed.

Lemma to_csv_trace w df : trace (to_csv w df) = [].
Proof. unfold to_csv. destruct (to_csv_ok w); reflexivity. Qed.

Lemma savefig_trace w name fig :
  Forall callee_event (trace (savefig w name fig)).
Proof.
  unfold savefig. destruct (plot_ok w name); repeat constructor.
Qed.

Lemma print_each_trace vs :
  trace (print_each vs) = map (fun v => Print (Cell v)) vs
  /\ result (print_each vs) = Return tt.
Proof.
  induction vs as [| v vs [IHt IHr]]; simpl; [auto |].
  rewrite trace_bind, result_bind. simpl. auto using f_equal.
Qed.

Lemma analyze_skills_trace w df :
  trace (analyze_skills w df)
  = Print (Note Distinct_heading)
    :: map (fun v => Print (Cell v)) (Pd.unique (Pd.explode (Df.skills df)))
    ++ (if plot_ok w (t"skills_wordcloud.png")
        then [ Savefig (t"skills_wordcloud.png")
                 (Cloud (Py.join (t", ")
                           (Pd.dropna (Pd.explode (Df.skills df)))))
             ; Print (Note (Plot_saved (t"skills_wordcloud.png"))) ]
        else []).
Proof.
  unfold analyze_skills.
  destruct (print_each_trace (Pd.unique (Pd.explode (Df.skills df))))
    as [Ht Hr].
  rewrite trace_bind. simpl. f_equal.
  rewrite trace_bind, Ht, Hr. f_equal.
  unfold savefig, say, emit.
  destruct (plot_ok w _); reflexivity.
Qed.

Lemma analysis_traces w df :
  Forall callee_event (trace (analyze_experience w df))
  /\ Forall callee_event (trace (analyze_salary w df))
  /\ Forall callee_event (trace (clean_and_analyze_locations w df))
  /\ Forall callee_event (trace (analyze_skills w df)).
Proof.
  rewrite analyze_experience_trace, analyze_salary_trace,
    clean_and_analyze_locations_trace, analyze_skills_trace.
  repeat split.
  - destruct (plot_ok w _); repeat constructor.
  - destruct (plot_ok w _); repeat constructor.
  - destruct (result (normalized_locations df)); [| constructor].
    destruct (plot_ok w (t"job_location_counts.png"));
      destruct (plot_ok w (t"location_wordcloud.png")); repeat constructor.
  - constructor; [reflexivity |]. apply Forall_app. split.
    + apply Forall_forall. intros e He.
      apply in_map_iff in He as (v & <- & _). reflexivity.
    + destruct (plot_ok w _); repeat constructor.
Qed.

Lemma skeleton_callee tr : Forall callee_event tr -> skeleton tr = [].
Proof.
  induction 1 as [| e tr He _ IH]; [reflexivity |].
  simpl. rewrite IH. destruct e; try discriminate; reflexivity.
Qed.

Lemma skeleton_bind {A B} (m : M A) (k : A -> M B) :
  skeleton (trace (bind m k))
  = skeleton (trace m) ++ match result m with
                          | Return a => skeleton (trace (k a))
                          | Raise _ => []
                          end.
Proof.
  rewrite trace_bind. unfold skeleton. rewrite filter_app.
  destruct (result m); reflexivity.
Qed.

Lemma skeleton_call {A} f args (body : M A) val :
  Forall callee_event (trace body) ->
  skeleton (trace (call f args body val))
  = [Call f args; match result body with
                  | Return a => Ret f (val a)
                  | Raise e => Exc f e
                  end].
Proof.
  intros H. rewrite trace_call. unfold skeleton. simpl.
  rewrite filter_app. fold (skeleton (trace body)).
  rewrite (skeleton_callee _ H). simpl. destruct (result body); reflexivity.
Qed.

Lemma main_eq w :
  main w
  = trace (initialize_driver w)
    ++ match result (initialize_driver w) with
       | Return _ =>
           trace (main_body w)
           ++ match result (main_body w) with
              | Return _ => []
              | Raise e => [Print (Note (Error_occurred e))]
              end
           ++ [Quit; Print (Note WebDriver_closed)]
       | Raise e => [Print (Note (Error_occurred e))]
       end.
Proof.
  unfold main.
  destruct (initialize_driver w) as [tr [[] | e]]; simpl.
  - destruct (main_body w) as [tr' [[] | e]]; reflexivity.
  - reflexivity.
Qed.

(** ** The pipeline of [main] (C5) *)

Lemma skeleton_say {B} n (k : unit -> M B) :
  skeleton (trace (bind (say n) k)) = skeleton (trace (k tt))
  /\ result (bind (say n) k) = result (k tt).
Proof. rewrite skeleton_bind, result_bind. auto. Qed.

Lemma main_skeleton w :
  skeleton (main w)
  = match result (initialize_driver w) with
    | Return _ => skeleton (trace (main_body w))
    | Raise _ => []
    end.
Proof.
  rewrite main_eq. unfold skeleton. rewrite filter_app.
  assert (H0 : filter is_call_event (trace (initialize_driver w)) = []).
  { unfold initialize_driver.
    destruct (chrome_starts w), (maximize_ok w); reflexivity. }
  rewrite H0. simpl.
  destruct (result (initialize_driver w)); [| reflexivity].
  rewrite !filter_app. simpl.
  destruct (result (main_body w)); simpl; now rewrite !app_nil_r.
Qed.

Ltac pass_say :=
  match goal with
  | |- context [skeleton (trace (bind (say ?n) ?k))] =>
      rewrite (proj1 (skeleton_say n k))
  end.

Ltac enter_stage H :=
  rewrite skeleton_bind, skeleton_call by H; rewrite result_call.

(** The run stopped after [k] stages. *)
Ltac stopped j df k :=
  eexists; split; [reflexivity |];
  exists j, df, k; left; reflexivity.

(** The stage after the first [k] raised. *)
Ltac raised j df k :=
  eexists; split; [reflexivity |];
  exists j, df, k; right; do 4 eexists; split; reflexivity.

(** C5, as the code has it.  In every run the stages called by [main]
    are the first stages of: scraping, cleaning, writing the CSV file, and
    the analyses of experience, salary, location and skills, in this
    order.  Each stage has returned before the next is called; cleaning is
    called on the dictionary that scraping returned; the CSV writer and
    every analysis are called on the table that cleaning returned; and once
    a stage has raised, no further stage is called. *)
Theorem main_runs_pipeline_in_order (w : world) :
  exists rs, stages (skeleton (main w)) = Some rs /\ pipeline_run rs.
Proof.
  rewrite main_skeleton.
  destruct (result (initialize_driver w)) as [[] | e0];
    [| stopped Jobs.empty df1 0].
  unfold main_body. pass_say.
  enter_stage ltac:(apply scrape_trace).
  destruct (result (scrape_naukri_jobs w num_pages)) as [j | e];
    [| raised Jobs.empty df1 0].
  pass_say.
  destruct (Jobs.job_no j) as [| n ns]; [stopped j df1 1 |].
  enter_stage ltac:(rewrite process_trace; constructor).
  destruct (result (process_job_data j)) as [df | e]; [| raised j df1 1].
  enter_stage ltac:(rewrite to_csv_trace; constructor).
  destruct (result (to_csv w df)) as [[] | e]; [| raised j df 2].
  do 2 pass_say.
  destruct (analysis_traces w df) as (T1 & T2 & T3 & T4).
  enter_stage ltac:(exact T1).
  destruct (result (analyze_experience w df)) as [[] | e]; [| raised j df 3].
  pass_say. enter_stage ltac:(exact T2).
  destruct (result (analyze_salary w df)) as [[] | e]; [| raised j df 4].
  pass_say. enter_stage ltac:(exact T3).
  destruct (result (clean_and_analyze_locations w df)) as [[] | e];
    [| raised j df 5].
  pass_say. enter_stage ltac:(exact T4).
  destruct (result (analyze_skills w df)) as [[] | e]; [| raised j df 6].
  stopped j df 7.
Qed.

(** C5 does not hold as written.  The analyses are not called on what the
    stage before them returned: [to_csv] returns [None], and
    [analyze_experience] is called on the table that [process_job_data]
    returned two stages earlier. *)
Lemma analysis_not_fed_by_previous_stage :
  exists rs,
    stages (skeleton (main world1)) = Some rs
    /\ nth_error rs 2 = Some (to_csv_f, [VFrame df1], Return VNone)
    /\ nth_error rs 3 = Some (analyze_f Experience, [VFrame df1], Return VNone)
    /\ ~ chained rs.
Proof.
  eexists. split; [vm_compute; reflexivity |].
  split; [reflexivity |]. split; [reflexivity |].
  simpl. intros (_ & _ & H & _). discriminate H.
Qed.

(** ** The browser session (C4) *)

Lemma callee_is_body tr : Forall callee_event tr -> Forall body_event tr.
Proof.
  apply Forall_impl. unfold callee_event, body_event. intros e ->. reflexivity.
Qed.

Lemma Forall_call {A} f args (body : M A) val :
  Forall callee_event (trace body) ->
  Forall body_event (trace (call f args body val)).
Proof.
  intros H. rewrite trace_call. constructor; [reflexivity |].
  apply Forall_app. split; [now apply callee_is_body |].
  destruct (result body); repeat constructor.
Qed.

Lemma main_body_events w : Forall body_event (trace (main_body w)).
Proof.
  unfold main_body.
  apply Forall_bind; [repeat constructor | intros _].
  apply Forall_bind; [apply Forall_call, scrape_trace | intros j].
  apply Forall_bind; [repeat constructor | intros _].
  destruct (Jobs.job_no j); [repeat constructor |].
  apply Forall_bind;
    [apply Forall_call; rewrite process_trace; constructor | intros df].
  destruct (analysis_traces w df) as (T1 & T2 & T3 & T4).
  repeat first
    [ apply Forall_bind; [| intros _]
    | apply Forall_call; first [ assumption | rewrite to_csv_trace; constructor ]
    | apply Forall_emit; reflexivity ].
Qed.

Lemma no_session_events tr :
  Forall body_event tr -> opened tr = 0 /\ closed tr = 0.
Proof.
  unfold opened, closed.
  induction 1 as [| e tr He _ [IHo IHc]]; [auto |].
  destruct e; try discriminate He; simpl; auto.
Qed.

Lemma opened_app a b : opened (a ++ b) = opened a + opened b.
Proof. unfold opened. now rewrite filter_app, length_app. Qed.

Lemma closed_app a b : closed (a ++ b) = closed a + closed b.
Proof. unfold closed. now rewrite filter_app, length_app. Qed.

(** C4, as the code has it.  When [initialize_driver] returns the driver,
    the run opens exactly one browser session and quits it exactly once,
    as the last thing [main] does before its final message, on every path:
    whether scraping, cleaning, writing the CSV file or an analysis raises
    or not.  When the browser does not start, no session is opened and
    none is closed. *)
Theorem session_closed_once_driver_returned (w : world) :
  (chrome_starts w = true -> maximize_ok w = true ->
   opened (main w) = 1 /\ closed (main w) = 1
   /\ exists tr, main w = tr ++ [Quit; Print (Note WebDriver_closed)]
                 /\ closed tr = 0)
  /\ (chrome_starts w = false ->
      opened (main w) = 0 /\ closed (main w) = 0).
Proof.
  rewrite main_eq. unfold initialize_driver.
  destruct (no_session_events _ (main_body_events w)) as [Ho Hc].
  split.
  - intros -> ->. cbn [bind emit trace result fst snd].
    change (trace (emit Open;;; emit Maximize)) with [Open; Maximize].
    change (result (emit Open;;; emit Maximize)) with (Return tt).
    cbv iota.
    set (handled := match result (main_body w) with
                    | Return _ => []
                    | Raise e => [Print (Note (Error_occurred e))]
                    end).
    assert (Hh : opened handled = 0 /\ closed handled = 0)
      by (subst handled; destruct (result (main_body w)); auto).
    destruct Hh as [Hho Hhc].
    repeat split.
    + rewrite !opened_app, Ho, Hho. reflexivity.
    + rewrite !closed_app, Hc, Hhc. reflexivity.
    + exists ([Open; Maximize] ++ trace (main_body w) ++ handled).
      split; [now rewrite <- !app_assoc |].
      rewrite !closed_app, Hc, Hhc. reflexivity.
  - intros ->. split; reflexivity.
Qed.

(** C4 does not hold as written.  When the browser does not start, no
    session is opened at all; when the window cannot be maximised, the
    session that was opened is never quit. *)
Lemma session_not_always_opened_and_closed :
  opened (main world_no_chrome) = 0
  /\ (opened (main world_no_maximize) = 1
      /\ closed (main world_no_maximize) = 0).
Proof. repeat split. Qed.

(** ** Results of the analyses *)

Lemma analyze_experience_result w df :
  result (analyze_experience w df)
  = if plot_ok w (t"experience_range.png") then Return tt else Raise OSError.
Proof.
  unfold analyze_experience, savefig, say, emit.
  destruct (plot_ok w _); reflexivity.
Qed.

Lemma analyze_salary_result w df :
  result (analyze_salary w df)
  = if plot_ok w (t"salaries_range.png") then Return tt else Raise OSError.
Proof.
  unfold analyze_salary, savefig, say, emit.
  destruct (plot_ok w _); reflexivity.
Qed.

Lemma clean_and_analyze_locations_result w df :
  result (clean_and_analyze_locations w df)
  = match result (normalized_locations df) with
    | Raise e => Raise e
    | Return _ =>
        if plot_ok w (t"job_location_counts.png")
        then if plot_ok w (t"location_wordcloud.png")
             then Return tt else Raise OSError
        else Raise OSError
    end.
Proof.
  unfold clean_and_analyze_locations. rewrite result_bind.
  destruct (result (normalized_locations df)) as [locs | e]; [| reflexivity].
  unfold savefig, say, emit.
  destruct (plot_ok w (t"job_location_counts.png"));
    destruct (plot_ok w (t"location_wordcloud.png")); reflexivity.
Qed.

Lemma analyze_skills_result w df :
  result (analyze_skills w df)
  = if plot_ok w (t"skills_wordcloud.png") then Return tt else Raise OSError.
Proof.
  unfold analyze_skills.
  destruct (print_each_trace (Pd.unique (Pd.explode (Df.skills df))))
    as [Ht Hr].
  rewrite !result_bind, Hr. simpl.
  unfold savefig, say, emit. destruct (plot_ok w _); reflexivity.
Qed.

(** ** The exploded columns of a cleaned table *)

Lemma apply_some f col :
  Pd.apply f (map Some col) = ([], Return (map f col)).
Proof.
  induction col as [| v col IH]; [reflexivity |].
  simpl. rewrite IH. reflexivity.
Qed.

Lemma explode_split col :
  Pd.explode (map (Py.split ",") col)
  = map Some (concat (map (Py.split ",") col)).
Proof.
  unfold Pd.explode. induction col as [| s col IH]; [reflexivity |].
  simpl. rewrite IH, map_app. f_equal.
  pose proof (split_not_empty "," s) as Hn.
  now destruct (Py.split "," s).
Qed.

(** On a table made by [process_job_data] no cell explodes to NaN, so
    the location column is normalised entry by entry. *)
Lemma normalized_locations_of_clean jobs df :
  process_job_data jobs = ([], Return df) ->
  normalized_locations df
  = ([], Return (map (fun s => replace_common_locations
                                 (replace_location_patterns s))
                     (concat (Df.locations df)))).
Proof.
  unfold process_job_data. destruct (same_length jobs); [| discriminate].
  intros [= <-]. unfold normalized_locations. cbn [Df.locations].
  rewrite explode_split, apply_some. unfold bind, ret. simpl.
  now rewrite map_map.
Qed.

Lemma scraped_jobs_are_processed w n jobs :
  result (scrape_naukri_jobs w n) = Return jobs ->
  exists df, process_job_data jobs = ([], Return df).
Proof.
  intros E.
  pose proof (scrape_pages_step w (seq 0 n) _ [] _ columns_of_empty E) as H.
  apply columns_of_same_length in H.
  unfold process_job_data. rewrite H. eexists. reflexivity.
Qed.

(** ** The trace of a run in which nothing raises *)

Lemma inside_callee f tr rest :
  Forall callee_event tr -> inside f (tr ++ rest) = inside f rest.
Proof.
  induction 1 as [| e tr He _ IH]; [reflexivity |].
  destruct e; try discriminate He; exact IH.
Qed.

Lemma until_end_callee f tr rest :
  Forall callee_event tr -> until_end f (tr ++ rest) = tr ++ until_end f rest.
Proof.
  induction 1 as [| e tr He _ IH]; [reflexivity |].
  destruct e; try discriminate He; simpl; now rewrite IH.
Qed.

Lemma main_trace_complete w jobs df :
  all_succeeds w ->
  result (scrape_naukri_jobs w num_pages) = Return jobs ->
  Jobs.job_no jobs <> [] ->
  process_job_data jobs = ([], Return df) ->
  main w
  = [ Open; Maximize; Print (Note Scraping_started)
    ; Call scrape_naukri_jobs_f [VDriver; VInt num_pages] ]
    ++ trace (scrape_naukri_jobs w num_pages)
    ++ [ Ret scrape_naukri_jobs_f (VJobs jobs)
       ; Print (Note Scraping_complete)
       ; Call process_job_data_f [VJobs jobs]
       ; Ret process_job_data_f (VFrame df)
       ; Call to_csv_f [VFrame df]
       ; Ret to_csv_f VNone
       ; Print (Note Raw_data_saved)
       ; Print (Note (Analyzing Experience))
       ; Call (analyze_f Experience) [VFrame df] ]
    ++ trace (analyze_experience w df)
    ++ [ Ret (analyze_f Experience) VNone
       ; Print (Note (Analyzing Salary))
       ; Call (analyze_f Salary) [VFrame df] ]
    ++ trace (analyze_salary w df)
    ++ [ Ret (analyze_f Salary) VNone
       ; Print (Note (Analyzing Location))
       ; Call (analyze_f Location) [VFrame df] ]
    ++ trace (clean_and_analyze_locations w df)
    ++ [ Ret (analyze_f Location) VNone
       ; Print (Note (Analyzing Skill))
       ; Call (analyze_f Skill) [VFrame df] ]
    ++ trace (analyze_skills w df)
    ++ [ Ret (analyze_f Skill) VNone
       ; Print (Note Analysis_complete)
       ; Quit; Print (Note WebDriver_closed) ].
Proof.
  intros (Hc & Hm & Hcsv & Hplot) Hs Hne Hp.
  pose proof (normalized_locations_of_clean _ _ Hp) as Hn.
  rewrite main_eq. unfold initialize_driver. rewrite Hc, Hm.
  change (trace (emit Open;;; emit Maximize)) with [Open; Maximize].
  change (result (emit Open;;; emit Maximize)) with (Return tt).
  cbv iota. unfold main_body.
  destruct (Jobs.job_no jobs) as [| n0 ns] eqn:Ej; [contradiction |].
  assert (Hcsv' : to_csv w df = ([], Return tt))
    by (unfold to_csv; now rewrite Hcsv).
  assert (Hloc : result (clean_and_analyze_locations w df) = Return tt)
    by (now rewrite clean_and_analyze_locations_result, Hn, !Hplot).
  assert (Hexp : result (analyze_experience w df) = Return tt)
    by (now rewrite analyze_experience_result, Hplot).
  assert (Hsal : result (analyze_salary w df) = Return tt)
    by (now rewrite analyze_salary_result, Hplot).
  assert (Hski : result (analyze_skills w df) = Return tt)
    by (now rewrite analyze_skills_result, Hplot).
  Opaque analyze_experience analyze_salary clean_and_analyze_locations
         analyze_skills scrape_naukri_jobs process_job_data to_csv.
  repeat progress
    (rewrite ?trace_bind, ?result_bind, ?trace_call, ?result_call,
       ?Hs, ?Ej, ?Hp, ?Hcsv', ?Hexp, ?Hsal, ?Hloc, ?Hski;
     cbn [say emit trace result fst snd]; cbv iota).
  Transparent analyze_experience analyze_salary clean_and_analyze_locations
              analyze_skills scrape_naukri_jobs process_job_data to_csv.
  repeat (rewrite <- ?app_assoc; cbn [app]). reflexivity.
Qed.

(** ** What a complete run produces (C2, C1) *)

Ltac find_segment :=
  repeat (cbn [app inside until_end func_eqb field_eqb];
          rewrite ?inside_callee, ?until_end_callee
            by first [ apply scrape_trace | apply analysis_traces ]);
  rewrite ?app_nil_r; reflexivity.

Lemma analysis_segments w jobs df :
  all_succeeds w ->
  result (scrape_naukri_jobs w num_pages) = Return jobs ->
  Jobs.job_no jobs <> [] ->
  process_job_data jobs = ([], Return df) ->
  inside (analyze_f Experience) (main w) = trace (analyze_experience w df)
  /\ inside (analyze_f Salary) (main w) = trace (analyze_salary w df)
  /\ inside (analyze_f Location) (main w)
     = trace (clean_and_analyze_locations w df)
  /\ inside (analyze_f Skill) (main w) = trace (analyze_skills w df).
Proof.
  intros Hw Hs Hne Hp. rewrite (main_trace_complete w jobs df Hw Hs Hne Hp).
  repeat split; find_segment.
Qed.

Lemma printed_of_cells vs :
  let tr := map (fun v => Print (Cell v)) vs in
  printed_counts tr = [] /\ printed_percentages tr = []
  /\ printed_cells tr = vs /\ saved_files tr = [] /\ clouds tr = [].
Proof.
  induction vs as [| v vs (H1 & H2 & H3 & H4 & H5)]; simpl; [auto 6 |].
  simpl in *. rewrite H3. auto 6.
Qed.

Lemma dropna_some col : Pd.dropna (map Some col) = col.
Proof. induction col; simpl; congruence. Qed.



(** C1, as the code has it.  On every table made by [process_job_data],
    the location analysis counts and draws the location entries of all
    rows after both regex substitutions; the skills analysis prints and
    draws the skill entries exactly as they stand in the table, with no
    substitution. *)
Theorem locations_normalized_skills_untouched
    (w : world) (jobs : Jobs.dict) (df : Df.frame) :
  process_job_data jobs = ([], Return df) ->
  let locs := map normalize (concat (Df.locations df)) in
  let skills := concat (Df.skills df) in
  printed_counts (trace (clean_and_analyze_locations w df))
    = [Pd.value_counts locs]
  /\ Forall (fun s => s = Py.join (t", ") locs)
            (clouds (trace (clean_and_analyze_locations w df)))
  /\ printed_cells (trace (analyze_skills w df))
     = Pd.unique (map Some skills)
  /\ Forall (fun s => s = Py.join (t", ") skills)
            (clouds (trace (analyze_skills w df))).
Proof.
  intros Hp. cbv zeta.
  rewrite clean_and_analyze_locations_trace, analyze_skills_trace,
    (normalized_locations_of_clean _ _ Hp).
  cbn [result snd].
  assert (He : Pd.explode (Df.skills df) = map Some (concat (Df.skills df))).
  { revert Hp. unfold process_job_data.
    destruct (same_length jobs); [| discriminate].
    intros [= <-]. cbn [Df.skills]. apply explode_split. }
  rewrite He, dropna_some.
  destruct (printed_of_cells (Pd.unique (map Some (concat (Df.skills df)))))
    as (_ & _ & P3 & _ & P5).
  cbv zeta in P3, P5.
  repeat split.
  - destruct (plot_ok w (t"job_location_counts.png"));
      destruct (plot_ok w (t"location_wordcloud.png")); reflexivity.
  - destruct (plot_ok w (t"job_location_counts.png"));
      destruct (plot_ok w (t"location_wordcloud.png")); repeat constructor.
  - unfold printed_cells in *. cbn [flat_map app].
    rewrite flat_map_app, P3.
    destruct (plot_ok w _); cbn [flat_map app]; now rewrite app_nil_r.
  - unfold clouds in *. cbn [flat_map app]. rewrite flat_map_app, P5.
    destruct (plot_ok w _); repeat constructor.
Qed.

(** C1 does not hold as written.  The skill 'manual testing' goes into
    the analysis with its blank, although the normalisation that the
    locations receive would make it 'manualtesting'. *)
Lemma skills_are_not_normalized :
  process_job_data jobs1 = ([], Return df1)
  /\ normalize (t"manual testing") = t"manualtesting"
  /\ printed_cells (trace (analyze_skills world1 df1))
     = [Some (t"manual testing"); Some (t"java"); Some (t"na"); Some []]
  /\ printed_cells (trace (analyze_skills world1 df1))
     <> Pd.unique (map Some (map normalize (concat (Df.skills df1))))
  /\ clouds (trace (analyze_skills world1 df1))
     = [t"manual testing, java, na, "].
Proof.
  split; [reflexivity |]. split; [vm_compute; reflexivity |].
  split; [vm_compute; reflexivity |].
  split; [vm_compute; discriminate | vm_compute; reflexivity].
Qed.

(** ** Percentages in binary64 (C3) *)

(** C3 does not hold as written.  Three values of equal frequency are
    each reported as 33.33333333333333, and these do not add up to 100,
    neither in binary64 nor as exact numbers. *)
Lemma percentages_do_not_sum_to_100 :
  exists p,
    printed_percentages (trace (analyze_experience world1 df1)) = [p]
    /\ Df.experience df1 <> []
    /\ map fst p = [t"3-5"; t"1-2"; t"5-8"]
    /\ float_sum (map snd p) <> 100%float
    /\ ~ (exact_sum (map snd p) == 100 # 1)%Q.
Proof.
  eexists. split; [vm_compute; reflexivity |].
  split; [discriminate |]. split; [reflexivity |]. split.
  - intros H. apply (f_equal (PrimFloat.eqb 100%float)) in H.
    vm_compute in H. discriminate H.
  - intros H. vm_compute in H. discriminate H.
Qed.

(* ================================================================== *)
(** ** The matcher *)

Lemma match_star k r adv n prev s :
  match_here (Star k :: r) adv n prev s
  = match s with
    | c :: s' =>
        if mem k c then
          match match_here (Star k :: r) adv (S n) (Some c) s' with
          | Some m => Some m
          | None => match_here r adv n prev s
          end
        else match_here r adv n prev s
    | [] => match_here r adv n prev s
    end.
Proof. destruct s; reflexivity. Qed.

Lemma match_bound r adv n prev s :
  match_here (Bound :: r) adv n prev s
  = if at_boundary prev s then match_here r adv n prev s else None.
Proof. reflexivity. Qed.

Lemma sub_from_skip r repl k prev c s :
  sub_from r repl (S k) prev (c :: s) = sub_from r repl k (Some c) s.
Proof. reflexivity. Qed.

Lemma sub_from_search r repl prev s :
  sub_from r repl 0 prev s
  = let copy := match s with
                | c :: s' => c :: sub_from r repl 0 (Some c) s'
                | [] => []
                end in
    let jump m := match s with
                  | c :: s' => sub_from r repl m (Some c) s'
                  | [] => []
                  end in
    match match_here r false 0 prev s with
    | None => copy
    | Some (S m) => repl ++ jump m
    | Some O =>
        repl ++ match match_here r true 0 prev s with
                | Some (S m) => repl ++ jump m
                | _ => copy
                end
    end.
Proof. destruct s; reflexivity. Qed.

(** With an empty replacement [re.sub] only deletes. *)
Lemma sub_from_deletes (P : ascii -> Prop) r s : forall skip prev,
  Forall P s -> Forall P (sub_from r [] skip prev s).
Proof.
  induction s as [| c s IH]; intros skip prev H.
  - destruct skip; [| constructor].
    rewrite sub_from_search. cbv zeta.
    destruct (match_here r false 0 prev []) as [[| m] |]; simpl;
      [destruct (match_here r true 0 prev []) as [[| m] |] |..]; constructor.
  - inversion H as [| ? ? Hc Hs]; subst.
    destruct skip as [| k]; [| rewrite sub_from_skip; auto].
    rewrite sub_from_search. cbv zeta.
    destruct (match_here r false 0 prev (c :: s)) as [[| m] |]; simpl; auto.
    destruct (match_here r true 0 prev (c :: s)) as [[| m] |]; simpl; auto.
Qed.

Lemma lstrip_keeps (P : ascii -> Prop) s : Forall P s -> Forall P (Py.lstrip s).
Proof.
  induction 1 as [| c s Hc Hs IH]; simpl; [constructor |].
  destruct (Py.isspace c); auto.
Qed.

Lemma rstrip_keeps (P : ascii -> Prop) s : Forall P s -> Forall P (Py.rstrip s).
Proof.
  induction 1 as [| c s Hc Hs IH]; simpl; [constructor |].
  destruct (Py.rstrip s); [destruct (Py.isspace c) |]; auto.
Qed.

(** ** [\s*] deletes every whitespace character (C9) *)

Lemma star_space_match adv s : forall n prev,
  match_here [Star Space] adv n prev s
  = if adv && (n + space_run s =? 0) then None else Some (n + space_run s).
Proof.
  induction s as [| c s IH]; intros n prev; rewrite match_star.
  - simpl. now rewrite Nat.add_0_r.
  - cbn [mem space_run]. destruct (Py.isspace c).
    + rewrite IH. rewrite <- plus_n_Sm. cbn [Nat.add Nat.eqb].
      rewrite andb_false_r. reflexivity.
    + simpl. now rewrite Nat.add_0_r.
Qed.

Lemma sub_star_space s : forall skip prev,
  skip <= space_run s ->
  sub_from [Star Space] [] skip prev s
  = filter (fun c => negb (Py.isspace c)) s.
Proof.
  induction s as [| c s IH]; intros skip prev Hk.
  - simpl in Hk. assert (skip = 0) as -> by lia. reflexivity.
  - destruct skip as [| k].
    + rewrite sub_from_search, !star_space_match. cbv zeta.
      cbn [space_run filter] in *. destruct (Py.isspace c); simpl.
      * apply IH. lia.
      * f_equal. apply IH. lia.
    + rewrite sub_from_skip. cbn [space_run filter] in *.
      destruct (Py.isspace c); [| lia]. simpl. apply IH. lia.
Qed.

Lemma filter_no_space s :
  Forall (fun c => Py.isspace c = false)
         (filter (fun c => negb (Py.isspace c)) s).
Proof.
  apply Forall_forall. intros c Hc. apply filter_In in Hc as [_ Hc].
  now apply negb_true_iff in Hc.
Qed.

(** C9.  Whatever the input, the text returned by
    [replace_location_patterns] holds no whitespace character: the
    substitution of [\s*] deletes them all, and what follows only deletes;
    so 'navi mumbai' becomes 'navimumbai'. *)
Theorem replace_location_patterns_no_whitespace (s : text) :
  Forall (fun c => Py.isspace c = false) (replace_location_patterns s)
  /\ sub [Star Space] [] s = filter (fun c => negb (Py.isspace c)) s
  /\ replace_location_patterns (t"navi mumbai") = t"navimumbai".
Proof.
  split; [| split].
  - unfold replace_location_patterns, location_patterns, Py.strip.
    cbn [fold_left]. apply rstrip_keeps, lstrip_keeps.
    unfold sub at 1. apply sub_from_deletes.
    unfold sub at 1. rewrite sub_star_space by lia.
    apply filter_no_space.
  - unfold sub. apply sub_star_space. lia.
  - vm_compute. reflexivity.
Qed.

(** ** [\b\w*name\w*\b] rewrites whole words (C10) *)

Section WordPattern.

Variables x repl : text.
Hypothesis x_wordy : wordy x.
Hypothesis x_not_empty : x <> [].

Let pattern : regex := [Bound; Star Word] ++ lit_nodes x ++ [Star Word; Bound].

Lemma tail_match adv V rest : forall m p,
  wordy V -> word_after rest = false -> isword p = true -> 1 <= m ->
  match_here [Star Word; Bound] adv m (Some p) (V ++ rest)
  = Some (m + length V).
Proof.
  induction V as [| c V IH]; intros m p HV Hr Hp Hm.
  - cbn [app length]. rewrite match_star, Nat.add_0_r.
    assert (Hend : match_here [Bound] adv m (Some p) rest = Some m).
    { cbn [match_here]. unfold at_boundary. cbn [word_before].
      rewrite Hp, Hr. cbn [xorb].
      destruct m; [lia |]. now rewrite andb_false_r. }
    destruct rest as [| d rest]; [exact Hend |].
    cbn [word_after] in Hr. cbn [mem]. now rewrite Hr.
  - inversion HV as [| ? ? Hc HV']; subst.
    cbn [app length]. rewrite match_star. cbn [mem]. rewrite Hc.
    rewrite (IH (S m) c HV' Hr Hc) by lia.
    f_equal. lia.
Qed.

Lemma lits_match adv rest (Hr : word_after rest = false) :
  forall y V m prev,
    wordy y -> wordy V ->
    (y = [] -> 1 <= m /\ word_before prev = true) ->
    match_here (lit_nodes y ++ [Star Word; Bound]) adv m prev (V ++ rest)
    = if Py.startswith y V then Some (m + length V) else None.
Proof.
  induction y as [| a y IH]; intros V m prev Hy HV Hm.
  - destruct (Hm eq_refl) as [Hm1 Hp].
    destruct prev as [p |]; [| discriminate].
    cbn [lit_nodes map app Py.startswith]. now apply tail_match.
  - inversion Hy as [| ? ? Ha Hy']; subst.
    cbn [lit_nodes map app match_here]. fold (lit_nodes y).
    destruct V as [| c V].
    + cbn [app Py.startswith]. destruct rest as [| d rest]; [reflexivity |].
      cbn [mem word_after] in *.
      destruct (Ascii.eqb_spec a d) as [-> | _]; [congruence | reflexivity].
    + inversion HV as [| ? ? Hc HV']; subst.
      cbn [app mem Py.startswith length].
      destruct (Ascii.eqb a c); [| reflexivity].
      rewrite IH; auto.
      * cbn [andb]. destruct (Py.startswith y V); [| reflexivity].
        f_equal. lia.
      * intros _. split; [lia | exact Hc].
Qed.

Lemma startswith_empty : Py.startswith x [] = false.
Proof. destruct x; [contradiction | reflexivity]. Qed.

Lemma star_word_match adv rest (Hr : word_after rest = false) :
  forall W n prev,
    wordy W ->
    match_here (Star Word :: lit_nodes x ++ [Star Word; Bound])
               adv n prev (W ++ rest)
    = if occurs x W then Some (n + length W) else None.
Proof.
  induction W as [| c W IH]; intros n prev HW.
  - cbn [app occurs]. rewrite match_star, startswith_empty. cbn [orb].
    pose proof (lits_match adv rest Hr x [] n prev x_wordy (Forall_nil _)
                  (fun E => False_ind _ (x_not_empty E))) as Hk.
    cbn [app] in Hk. rewrite startswith_empty in Hk.
    destruct rest as [| d rest]; [exact Hk |].
    cbn [word_after] in Hr. cbn [mem]. now rewrite Hr.
  - inversion HW as [| ? ? Hc HW']; subst.
    cbn [app]. rewrite match_star. cbn [mem]. rewrite Hc.
    rewrite (IH (S n) (Some c) HW'). cbn [occurs length].
    destruct (occurs x W).
    + rewrite orb_true_r. f_equal. lia.
    + rewrite orb_false_r.
      change (c :: W ++ rest) with ((c :: W) ++ rest).
      rewrite (lits_match adv rest Hr x (c :: W) n prev); auto.
      intros ->. contradiction.
Qed.

(** At the start of a word the pattern matches the whole word, when the
    word holds [x], and nothing otherwise. *)
Lemma word_start_match adv prev c W rest :
  word_before prev = false -> wordy (c :: W) -> word_after rest = false ->
  match_here pattern adv 0 prev ((c :: W) ++ rest)
  = if occurs x (c :: W) then Some (length (c :: W)) else None.
Proof.
  intros Hp HW Hr. unfold pattern. cbn [app]. rewrite match_bound.
  unfold at_boundary. rewrite Hp. cbn [word_after].
  inversion HW as [| ? ? Hc _]; subst. rewrite Hc. cbn [xorb].
  change (c :: W ++ rest) with ((c :: W) ++ rest).
  now rewrite (star_word_match adv rest Hr (c :: W) 0 prev HW).
Qed.

(** Behind a word character the pattern never matches. *)
Lemma after_word_no_match adv p s :
  isword p = true -> match_here pattern adv 0 (Some p) s = None.
Proof.
  intros Hp. unfold pattern. cbn [app]. rewrite match_bound.
  unfold at_boundary. cbn [word_before]. rewrite Hp.
  destruct (word_after s) eqn:Hs; [reflexivity |]. cbn [xorb].
  change s with ([] ++ s).
  rewrite (star_word_match adv s Hs [] 0 (Some p)) by constructor.
  cbn [occurs]. now rewrite startswith_empty.
Qed.

(** Between two characters that are not word characters it does not
    match either. *)
Lemma outside_word_no_match adv prev s :
  word_before prev = false -> word_after s = false ->
  match_here pattern adv 0 prev s = None.
Proof.
  intros Hp Hs. unfold pattern. cbn [app]. rewrite match_bound.
  unfold at_boundary. now rewrite Hp, Hs.
Qed.

(** What [re.sub] does with the text behind a word. *)
Let rest_of (rest : text) : text :=
  match rest with
  | [] => []
  | d :: rest' => d :: sub_from pattern repl 0 (Some d) rest'
  end.

Lemma after_word_copy p rest :
  isword p = true -> sub_from pattern repl 0 (Some p) rest = rest_of rest.
Proof.
  intros Hp. rewrite sub_from_search, after_word_no_match by exact Hp.
  reflexivity.
Qed.

Lemma copy_word V rest : forall p,
  isword p = true -> wordy V ->
  sub_from pattern repl 0 (Some p) (V ++ rest) = V ++ rest_of rest.
Proof.
  induction V as [| c V IH]; intros p Hp HV.
  - now apply after_word_copy.
  - inversion HV as [| ? ? Hc HV']; subst.
    rewrite after_word_copy by exact Hp. cbn [app rest_of].
    f_equal. now apply IH.
Qed.

Lemma skip_word V rest : forall p,
  isword p = true -> wordy V ->
  sub_from pattern repl (length V) (Some p) (V ++ rest) = rest_of rest.
Proof.
  induction V as [| c V IH]; intros p Hp HV.
  - now apply after_word_copy.
  - inversion HV as [| ? ? Hc HV']; subst.
    cbn [length app]. rewrite sub_from_skip. now apply IH.
Qed.

(** A whole word is replaced or copied, and the scan goes on behind it. *)
Lemma sub_word prev c W rest :
  word_before prev = false -> wordy (c :: W) -> word_after rest = false ->
  sub_from pattern repl 0 prev ((c :: W) ++ rest)
  = swap_word x repl (c :: W) ++ rest_of rest.
Proof.
  intros Hp HW Hr.
  rewrite sub_from_search, word_start_match by assumption.
  inversion HW as [| ? ? Hc HW']; subst.
  unfold swap_word. destruct (occurs x (c :: W)); cbn [length app]; cbv zeta.
  - f_equal. now apply skip_word.
  - f_equal. now apply copy_word.
Qed.

Lemma split_word s :
  exists W rest, s = W ++ rest /\ wordy W /\ word_after rest = false.
Proof.
  induction s as [| c s (W & rest & -> & HW & Hr)].
  - exists [], []. repeat split. constructor.
  - destruct (isword c) eqn:Hc.
    + exists (c :: W), rest. repeat split; [constructor |]; assumption.
    + exists [], (c :: W ++ rest). repeat split; [constructor | exact Hc].
Qed.

Lemma map_words_word f W : forall acc s,
  wordy W -> map_words f acc (W ++ s) = map_words f (acc ++ W) s.
Proof.
  induction W as [| c W IH]; intros acc s HW.
  - now rewrite app_nil_r.
  - inversion HW as [| ? ? Hc HW']; subst.
    cbn [app map_words]. rewrite Hc, IH by assumption.
    now rewrite <- app_assoc.
Qed.

(** [re.sub] with the pattern is the word-by-word replacement. *)
Lemma sub_from_is_map_words : forall n s prev,
  length s <= n -> word_before prev = false ->
  sub_from pattern repl 0 prev s = map_words (swap_word x repl) [] s.
Proof.
  induction n as [| n IH]; intros s prev Hn Hp.
  - destruct s; [| simpl in Hn; lia].
    rewrite sub_from_search, outside_word_no_match by auto. reflexivity.
  - destruct s as [| c s].
    { rewrite sub_from_search, outside_word_no_match by auto. reflexivity. }
    destruct (isword c) eqn:Hc.
    + destruct (split_word s) as (W & rest & -> & HW & Hr).
      assert (HcW : wordy (c :: W)) by now constructor.
      change (c :: W ++ rest) with ((c :: W) ++ rest) in *.
      rewrite sub_word, map_words_word by assumption.
      cbn [app]. destruct rest as [| d rest].
      * cbn. now rewrite app_nil_r.
      * cbn [word_after] in Hr. cbn [map_words rest_of flush]. rewrite Hr.
        do 2 f_equal. apply IH; [| exact Hr].
        rewrite length_app in Hn. simpl in Hn. lia.
    + rewrite sub_from_search, outside_word_no_match by auto.
      cbv zeta. cbn [map_words flush app]. rewrite Hc. f_equal.
      apply IH; [simpl in Hn; lia | exact Hc].
Qed.

End WordPattern.

(** ** [str.strip] *)

Lemma lstrip_blank_app l y : blank l -> Py.lstrip (l ++ y) = Py.lstrip y.
Proof. induction 1 as [| c l Hc _ IH]; simpl; [| rewrite Hc]; auto. Qed.

Lemma lstrip_length s : length (Py.lstrip s) <= length s.
Proof.
  induction s as [| c s IH]; simpl; [lia |].
  destruct (Py.isspace c); simpl; lia.
Qed.

Lemma lstrip_fixed_head c s : Py.lstrip (c :: s) = c :: s -> Py.isspace c = false.
Proof.
  simpl. destruct (Py.isspace c); [| reflexivity].
  intros H. pose proof (lstrip_length s) as L. rewrite H in L. simpl in L. lia.
Qed.

Lemma lstrip_split s : exists l, s = l ++ Py.lstrip s /\ blank l.
Proof.
  induction s as [| c s (l & E & Hl)].
  - exists []. split; [reflexivity | constructor].
  - simpl. destruct (Py.isspace c) eqn:Hc.
    + exists (c :: l). split; [simpl; f_equal; exact E | now constructor].
    + exists []. split; [reflexivity | constructor].
Qed.

Lemma rstrip_blank r : blank r -> Py.rstrip r = [].
Proof. induction 1 as [| c r Hc _ IH]; simpl; [| rewrite IH, Hc]; auto. Qed.

Lemma rstrip_blank_app r : blank r -> forall m, Py.rstrip (m ++ r) = Py.rstrip m.
Proof.
  intros Hr. induction m as [| c m IH]; simpl.
  - now apply rstrip_blank.
  - now rewrite IH.
Qed.

Lemma rstrip_snoc s d : Py.isspace d = false -> Py.rstrip (s ++ [d]) = s ++ [d].
Proof.
  intros Hd. induction s as [| c s IH]; simpl.
  - now rewrite Hd.
  - rewrite IH. now destruct s.
Qed.

Lemma rstrip_ends s :
  Py.rstrip s = []
  \/ exists s' d, Py.rstrip s = s' ++ [d] /\ Py.isspace d = false.
Proof.
  induction s as [| c s [IH | (s' & d & IH & Hd)]]; simpl; auto.
  - rewrite IH. destruct (Py.isspace c) eqn:Hc; [auto |].
    right. exists [], c. auto.
  - rewrite IH. right. exists (c :: s'), d. split; [| exact Hd].
    now destruct s'.
Qed.

Lemma rstrip_idem s : Py.rstrip (Py.rstrip s) = Py.rstrip s.
Proof.
  destruct (rstrip_ends s) as [-> | (s' & d & -> & Hd)]; [reflexivity |].
  now apply rstrip_snoc.
Qed.

Lemma rstrip_split s : exists r, s = Py.rstrip s ++ r /\ blank r.
Proof.
  induction s as [| c s (r & E & Hr)].
  - exists []. split; [reflexivity | constructor].
  - simpl. destruct (Py.rstrip s) as [| a u] eqn:Eu.
    + simpl in E. subst r. destruct (Py.isspace c) eqn:Hc.
      * exists (c :: s). split; [reflexivity | now constructor].
      * exists s. split; [reflexivity | exact Hr].
    + exists r. split; [simpl; f_equal; exact E | exact Hr].
Qed.

Lemma rstrip_head c s :
  Py.isspace c = false -> exists u, Py.rstrip (c :: s) = c :: u.
Proof.
  intros Hc. simpl. destruct (Py.rstrip s) as [| a u].
  - rewrite Hc. now exists [].
  - now exists (a :: u).
Qed.

Lemma lstrip_idem s : Py.lstrip (Py.lstrip s) = Py.lstrip s.
Proof.
  induction s as [| a s IH]; simpl; [reflexivity |].
  destruct (Py.isspace a) eqn:Ha; [exact IH |]. simpl. now rewrite Ha.
Qed.

Lemma strip_trimmed s : trimmed (Py.strip s).
Proof.
  unfold trimmed, Py.strip. split; [| apply rstrip_idem].
  destruct (Py.lstrip s) as [| c u] eqn:Eu; [reflexivity |].
  assert (Hc : Py.isspace c = false).
  { apply lstrip_fixed_head with (s := u). rewrite <- Eu. apply lstrip_idem. }
  destruct (rstrip_head c u Hc) as [v ->]. simpl. now rewrite Hc.
Qed.

(** Stripping removes a blank prefix and a blank suffix around a trimmed
    text, and every text is of this form. *)
Lemma strip_around l m r :
  blank l -> blank r -> trimmed m -> Py.strip (l ++ m ++ r) = m.
Proof.
  intros Hl Hr [Hm1 Hm2]. unfold Py.strip.
  rewrite lstrip_blank_app by exact Hl.
  destruct m as [| c m].
  - simpl. destruct (lstrip_split r) as (l' & E & Hl').
    apply rstrip_blank. clear - Hr.
    induction Hr as [| a r Ha _ IH]; simpl; [constructor |].
    now rewrite Ha.
  - apply lstrip_fixed_head in Hm1 as Hc.
    change (Py.lstrip ((c :: m) ++ r)) with (Py.lstrip (c :: m ++ r)).
    cbn [Py.lstrip]. rewrite Hc.
    change (c :: m ++ r) with ((c :: m) ++ r).
    now rewrite rstrip_blank_app.
Qed.

Lemma strip_split s :
  exists l r, s = l ++ Py.strip s ++ r /\ blank l /\ blank r.
Proof.
  destruct (lstrip_split s) as (l & E & Hl).
  destruct (rstrip_split (Py.lstrip s)) as (r & E' & Hr).
  exists l, r. unfold Py.strip. rewrite <- E'. auto.
Qed.

(** ** Word-by-word replacement *)

Lemma space_not_word c : Py.isspace c = true -> isword c = false.
Proof. destruct c as [[] [] [] [] [] [] [] []]; vm_compute; congruence. Qed.

Lemma blank_nonword s : blank s -> nonword s.
Proof. apply Forall_impl. exact space_not_word. Qed.

Lemma flush_wordy f acc : keeps_words f -> wordy acc -> wordy (flush f acc).
Proof.
  intros Hf Ha. destruct acc as [| a acc]; [constructor |].
  now apply Hf.
Qed.

Lemma flush_flush f g acc :
  keeps_words f -> wordy acc ->
  flush g (flush f acc) = flush (fun w => g (f w)) acc.
Proof.
  intros Hf Ha. destruct acc as [| a acc]; [reflexivity |].
  cbn [flush]. destruct (Hf (a :: acc)) as [Hne _]; [discriminate | exact Ha |].
  now destruct (f (a :: acc)).
Qed.

Lemma map_words_compose f g : keeps_words f -> forall s acc,
  wordy acc ->
  map_words g [] (map_words f acc s) = map_words (fun w => g (f w)) acc s.
Proof.
  intros Hf. induction s as [| c s IH]; intros acc Ha.
  - cbn [map_words].
    pose proof (map_words_word g (flush f acc) [] [] (flush_wordy _ _ Hf Ha))
      as E.
    rewrite app_nil_r in E. rewrite E. cbn [app map_words].
    now apply flush_flush.
  - cbn [map_words]. destruct (isword c) eqn:Hc.
    + apply IH. apply Forall_app. split; [exact Ha | now constructor].
    + rewrite map_words_word by now apply flush_wordy.
      cbn [app map_words]. rewrite Hc, IH by constructor.
      now rewrite flush_flush.
Qed.

Lemma map_words_ext f g :
  (forall w, f w = g w) -> forall s acc, map_words f acc s = map_words g acc s.
Proof.
  intros E. induction s as [| c s IH]; intros acc; cbn [map_words].
  - destruct acc; simpl; auto.
  - rewrite !IH. destruct acc; simpl; now rewrite ?E.
Qed.

Lemma map_words_after_nonword f l : nonword l -> forall s,
  map_words f [] (l ++ s) = l ++ map_words f [] s.
Proof.
  induction 1 as [| c l Hc _ IH]; intros s; [reflexivity |].
  cbn [app map_words flush]. now rewrite Hc, IH.
Qed.

Lemma map_words_before_nonword f r : nonword r -> forall s acc,
  map_words f acc (s ++ r) = map_words f acc s ++ r.
Proof.
  intros Hr. induction s as [| c s IH]; intros acc.
  - cbn [app map_words]. destruct Hr as [| d r Hd Hr]; cbn [map_words].
    + now rewrite app_nil_r.
    + rewrite Hd. f_equal. f_equal.
      pose proof (map_words_after_nonword f r Hr []) as E.
      cbn [map_words flush] in E. now rewrite !app_nil_r in E.
  - cbn [app map_words]. destruct (isword c); rewrite IH; [reflexivity |].
    now rewrite <- app_assoc.
Qed.

Lemma keeps_swap x repl :
  repl <> [] -> wordy repl -> keeps_words (swap_word x repl).
Proof.
  intros Hne Hw w Hw1 Hw2. unfold swap_word. destruct (occurs x w); auto.
Qed.

Lemma keeps_compose f g :
  keeps_words f -> keeps_words g -> keeps_words (fun w => g (f w)).
Proof. intros Hf Hg w H1 H2. destruct (Hf w H1 H2). now apply Hg. Qed.

Lemma sub_word_containing name repl s :
  wordy (t name) -> t name <> [] ->
  sub (word_containing name) repl s
  = map_words (swap_word (t name) repl) [] s.
Proof.
  intros H1 H2. unfold sub.
  now apply (sub_from_is_map_words (t name) repl H1 H2 (length s)).
Qed.

Ltac word_facts := first [ discriminate | repeat constructor ].

Lemma replace_common_locations_words s :
  replace_common_locations s = Py.strip (map_words rename [] s).
Proof.
  unfold replace_common_locations, replacements. cbn [fold_left fst snd].
  rewrite !sub_word_containing by word_facts.
  assert (K1 : keeps_words (swap_word (t"mumbai") (t"mumbai")))
    by (apply keeps_swap; word_facts).
  assert (K2 : keeps_words (swap_word (t"delhi") (t"delhi")))
    by (apply keeps_swap; word_facts).
  assert (K3 : keeps_words (swap_word (t"bangal") (t"bengaluru")))
    by (apply keeps_swap; word_facts).
  rewrite (map_words_compose _ _ K1 s []) by constructor.
  rewrite (map_words_compose _ _ (keeps_compose _ _ K1 K2) s [])
    by constructor.
  rewrite (map_words_compose _ _
             (keeps_compose _ _ (keeps_compose _ _ K1 K2) K3) s [])
    by constructor.
  reflexivity.
Qed.

Lemma rename_cases w :
  rename w = t"mumbai" \/ rename w = t"delhi" \/ rename w = t"bengaluru"
  \/ rename w = t"noida" \/ rename w = w.
Proof.
  unfold rename, swap_word.
  destruct (occurs (t"mumbai") w); cbv iota; [left; reflexivity |].
  destruct (occurs (t"delhi") w); cbv iota; [right; left; reflexivity |].
  destruct (occurs (t"bangal") w); cbv iota;
    [do 2 right; left; reflexivity |].
  destruct (occurs (t"noida") w); cbv iota;
    [do 3 right; left; reflexivity |].
  do 4 right. reflexivity.
Qed.

Lemma rename_idem w : rename (rename w) = rename w.
Proof.
  destruct (rename_cases w) as [E | [E | [E | [E | E]]]]; rewrite E;
    first [ reflexivity | exact E ].
Qed.

Lemma keeps_rename : keeps_words rename.
Proof.
  intros w Hne Hw.
  destruct (rename_cases w) as [E | [E | [E | [E | E]]]]; rewrite E;
    first [ now split | split; word_facts ].
Qed.

Lemma map_words_rename_idem s :
  map_words rename [] (map_words rename [] s) = map_words rename [] s.
Proof.
  rewrite map_words_compose by (apply keeps_rename || constructor).
  apply map_words_ext. exact rename_idem.
Qed.

(** C10.  [replace_common_locations] is idempotent on every text. *)
Theorem replace_common_locations_idempotent (s : text) :
  replace_common_locations (replace_common_locations s)
  = replace_common_locations s.
Proof.
  rewrite !replace_common_locations_words.
  set (u := map_words rename [] s).
  destruct (strip_split u) as (l & r & E & Hl & Hr).
  assert (Hfix : map_words rename [] (Py.strip u) = Py.strip u).
  { pose proof (map_words_rename_idem s) as H. fold u in H.
    assert (H' : map_words rename [] (l ++ Py.strip u ++ r)
                 = l ++ Py.strip u ++ r) by (rewrite <- E; exact H).
    rewrite map_words_after_nonword in H' by now apply blank_nonword.
    rewrite map_words_before_nonword in H' by now apply blank_nonword.
    apply app_inv_head in H'. now apply app_inv_tail in H'. }
  rewrite Hfix.
  pose proof (strip_around [] (Py.strip u) [] (Forall_nil _) (Forall_nil _)
                (strip_trimmed u)) as H.
  now rewrite app_nil_r in H.
Qed.

(* ================================================================== *)
(** ** The theorems at the sample run *)

Lemma scrape_lists_equal_length_witness :
  result (scrape_naukri_jobs world1 num_pages) = Return jobs1
  /\ length (Jobs.roles jobs1) = 3
  /\ length (Jobs.skills jobs1) = length (kept world1 (seq 0 num_pages)).
Proof.
  split; [reflexivity |].
  pose proof (scrape_lists_equal_length world1 num_pages jobs1 eq_refl) as H.
  cbv zeta in H. destruct H as ((_ & H1 & _ & _ & _ & _ & H6) & _).
  split; [exact H1 | exact H6].
Defined.


Lemma session_closed_once_driver_returned_witness :
  (chrome_starts world1 = true /\ maximize_ok world1 = true
   /\ opened (main world1) = 1 /\ closed (main world1) = 1)
  /\ (chrome_starts world_no_chrome = false
      /\ opened (main world_no_chrome) = 0
      /\ closed (main world_no_chrome) = 0).
Proof.
  split.
  - destruct (session_closed_once_driver_returned world1) as [H _].
    destruct (H eq_refl eq_refl) as (Ho & Hc & _).
    repeat split; assumption.
  - destruct (session_closed_once_driver_returned world_no_chrome) as [_ H].
    destruct (H eq_refl) as [Ho Hc].
    repeat split; assumption.
Defined.

Lemma world1_all_succeeds : all_succeeds world1.
Proof. repeat split. Defined.


Lemma locations_normalized_skills_untouched_witness :
  process_job_data jobs1 = ([], Return df1)
  /\ printed_counts (trace (clean_and_analyze_locations world1 df1))
     = [Pd.value_counts (map normalize (concat (Df.locations df1)))]
  /\ printed_cells (trace (analyze_skills world1 df1))
     = Pd.unique (map Some (concat (Df.skills df1))).
Proof.
  split; [reflexivity |].
  pose proof (locations_normalized_skills_untouched world1 jobs1 df1 eq_refl)
    as H.
  cbv zeta in H. destruct H as (H1 & _ & H3 & _).
  split; [exact H1 | exact H3].
Defined.

(* ================================================================== *)
(** * Further properties of the code *)

(** ** The scraper *)

Lemma raises_only_webdriver_bind {A B} (m : M A) (k : A -> M B) :
  raises_only_webdriver m ->
  (forall a, raises_only_webdriver (k a)) ->
  raises_only_webdriver (bind m k).
Proof.
  unfold raises_only_webdriver. intros Hm Hk. rewrite result_bind.
  destruct (result m) as [a | e]; [apply Hk | exact Hm].
Qed.

Lemma scrape_job_outcome jobs jobno job :
  trace (scrape_job jobs jobno job) = []
  /\ raises_only_webdriver (scrape_job jobs jobno job).
Proof.
  unfold scrape_job, raises_only_webdriver.
  destruct job as [ti co lo ex sa ta]; simpl.
  destruct ti, co, lo, ex, ta; split; reflexivity.
Qed.

Lemma scrape_tuples_outcome i len lst : forall index jobs,
  trace (scrape_tuples i len index lst jobs) = []
  /\ raises_only_webdriver (scrape_tuples i len index lst jobs).
Proof.
  induction lst as [| job rest IH]; simpl; intros index jobs.
  - split; [reflexivity | exact I].
  - destruct (scrape_job_outcome jobs (i * len + index + 1) job) as [Ht Hr].
    split.
    + rewrite trace_bind, Ht.
      destruct (result (scrape_job _ _ _)); [apply IH | reflexivity].
    + apply raises_only_webdriver_bind; [exact Hr | intro; apply IH].
Qed.

Lemma scrape_pages_outcome w pages : forall jobs,
  (exists k, trace (scrape_pages w pages jobs) = map Get (firstn k pages))
  /\ match result (scrape_pages w pages jobs) with
     | Return _ => trace (scrape_pages w pages jobs) = map Get pages
     | Raise e => e = WebDriverException
     end.
Proof.
  induction pages as [| i rest IH]; simpl; intros jobs.
  - split; [exists 0 |]; reflexivity.
  - rewrite !trace_bind, !result_bind. cbn [emit trace result fst snd app].
    destruct (site w i) as [lst |]; cbn [ret raise trace result fst snd app].
    2:{ split; [exists 1 |]; reflexivity. }
    destruct (scrape_tuples_outcome i (length lst) lst 0 jobs) as [Ht Hr].
    rewrite !trace_bind, !result_bind, Ht.
    unfold raises_only_webdriver in Hr.
    destruct (result (scrape_tuples i (length lst) 0 lst jobs)) as [jobs1 | e].
    + destruct (IH jobs1) as [[k Hk] Hres]. cbn [app]. split.
      * exists (S k). cbn [firstn map]. now rewrite Hk.
      * destruct (result (scrape_pages w rest jobs1)); [| exact Hres].
        now rewrite Hres.
    + split; [exists 1; reflexivity | exact Hr].
Qed.

Lemma firstn_of_seq k : forall start n,
  firstn k (seq start n) = seq start (Nat.min k n).
Proof.
  induction k as [| k IH]; intros start [| n]; simpl; try reflexivity.
  now rewrite IH.
Qed.

(** X1.  [NoSuchElementException] never leaves [scrape_naukri_jobs]: the
    scraper either returns its dictionary or ends with a
    [WebDriverException] (a page that does not load, or a lookup that
    fails for another reason than "not found").  It logs nothing but page
    loads, in page order without repetition; when it returns, every page
    from 0 to [num_pages - 1] has been loaded exactly once. *)
Theorem scrape_outcome (w : world) (n : nat) :
  (exists k, k <= n /\ trace (scrape_naukri_jobs w n) = map Get (seq 0 k))
  /\ match result (scrape_naukri_jobs w n) with
     | Return _ => trace (scrape_naukri_jobs w n) = map Get (seq 0 n)
     | Raise e => e = WebDriverException
     end.
Proof.
  unfold scrape_naukri_jobs.
  destruct (scrape_pages_outcome w (seq 0 n) Jobs.empty) as [[k Hk] Hres].
  split; [| exact Hres].
  exists (Nat.min k n). split; [lia |].
  now rewrite Hk, firstn_of_seq.
Qed.

(** X2.  When every page loads and no lookup on a job element fails with
    an error other than "not found", [scrape_naukri_jobs] returns a
    dictionary: missing elements alone never make it raise. *)
Theorem scrape_returns_without_errors (w : world) (n : nat) :
  (forall i, i < n ->
     exists lst, site w i = Some lst
                 /\ Forall (fun job => no_error job = true) lst) ->
  exists jobs, result (scrape_naukri_jobs w n) = Return jobs.
Proof.
  intros H. apply scrape_pages_returns.
  apply Forall_forall. intros i Hi. apply in_seq in Hi. apply H. lia.
Qed.

Lemma scrape_job_number jobs jobno job jobs' :
  result (scrape_job jobs jobno job) = Return jobs' ->
  Jobs.job_no jobs'
  = Jobs.job_no jobs ++ if complete job then [jobno] else [].
Proof.
  unfold scrape_job, complete.
  destruct job as [ti co lo ex sa ta]; simpl.
  destruct ti, co, lo, ex, ta; cbv [bind try_except find_element ret raise];
    simpl; intros E; try discriminate; injection E as <-;
    simpl; now rewrite ?app_nil_r.
Qed.

Lemma scrape_tuples_numbers i len lst : forall index jobs jobs',
  result (scrape_tuples i len index lst jobs) = Return jobs' ->
  Jobs.job_no jobs' = Jobs.job_no jobs ++ numbers i len index lst.
Proof.
  induction lst as [| job rest IH]; simpl; intros index jobs jobs' E.
  - injection E as <-. now rewrite app_nil_r.
  - apply bind_returns in E as (jobs1 & E1 & E2).
    rewrite (IH _ _ _ E2), (scrape_job_number _ _ _ _ E1).
    now rewrite <- app_assoc.
Qed.

Lemma scrape_pages_numbers w pages : forall jobs jobs',
  result (scrape_pages w pages jobs) = Return jobs' ->
  Jobs.job_no jobs' = Jobs.job_no jobs ++ numbers_of_pages w pages.
Proof.
  induction pages as [| i rest IH]; simpl; intros jobs jobs' E.
  - injection E as <-. now rewrite app_nil_r.
  - apply bind_returns in E as ([] & _ & E).
    apply bind_returns in E as (lst & El & E).
    apply bind_returns in E as (jobs1 & E1 & E2).
    destruct (site w i) as [lst0 |]; [| discriminate].
    injection El as <-.
    rewrite (IH _ _ E2), (scrape_tuples_numbers _ _ _ _ _ _ E1).
    now rewrite <- app_assoc.
Qed.

Lemma numbers_bounds i len lst : forall index,
  Forall (fun k => i * len + index < k <= i * len + index + length lst)
         (numbers i len index lst).
Proof.
  induction lst as [| job rest IH]; simpl; intros index; [constructor |].
  apply Forall_app. split.
  - destruct (complete job); repeat constructor; lia.
  - eapply Forall_impl; [| apply (IH (S index))]. simpl. intros k Hk. lia.
Qed.

Lemma numbers_increasing i len lst : forall index,
  StronglySorted lt (numbers i len index lst).
Proof.
  induction lst as [| job rest IH]; simpl; intros index; [constructor |].
  destruct (complete job); simpl; [| apply IH].
  constructor; [apply IH |].
  eapply Forall_impl; [| apply (numbers_bounds i len rest (S index))].
  simpl. intros k Hk. lia.
Qed.

(** X3.  The job numbers of the returned dictionary are the numbers
    [i * len(lst) + index + 1] of the elements that were kept; a skipped
    element leaves a gap.  Within one page they are strictly increasing
    and lie between [i * len(lst) + 1] and [(i + 1) * len(lst)], so with a
    single page no two jobs share a number. *)
Theorem scraped_job_numbers (w : world) (n : nat) (jobs : Jobs.dict) :
  result (scrape_naukri_jobs w n) = Return jobs ->
  Jobs.job_no jobs = numbers_of_pages w (seq 0 n)
  /\ (forall i lst, site w i = Some lst ->
        StronglySorted lt (numbers i (length lst) 0 lst)
        /\ Forall (fun k => i * length lst < k <= (i + 1) * length lst)
                  (numbers i (length lst) 0 lst))
  /\ (n = 1 -> StronglySorted lt (Jobs.job_no jobs)).
Proof.
  intros E.
  pose proof (scrape_pages_numbers w (seq 0 n) _ _ E) as H. simpl in H.
  split; [exact H |]. split.
  - intros i lst _. split; [apply numbers_increasing |].
    eapply Forall_impl; [| apply (numbers_bounds i (length lst) lst 0)].
    simpl. intros k Hk. lia.
  - intros ->. rewrite H. unfold numbers_of_pages. simpl.
    rewrite app_nil_r. destruct (site w 0); [| constructor].
    apply numbers_increasing.
Qed.

(** ** Cleaning *)


Lemma concat_at_least (cells : list (list text)) :
  Forall (fun cell => cell <> []) cells ->
  length cells <= length (concat cells).
Proof.
  induction 1 as [| cell cells Hc _ IH]; simpl; [lia |].
  rewrite length_app. destruct cell; [contradiction | simpl; lia].
Qed.

(** X5.  In a table made by [process_job_data] every location cell and
    every skills cell holds at least one entry, so exploding them yields
    no NaN and [clean_and_analyze_locations] cannot fail with the
    [TypeError] of [re.sub] on NaN: it normalises every entry, and there
    are at least as many entries as rows. *)
Theorem cleaned_table_explodes (jobs : Jobs.dict) (df : Df.frame) :
  process_job_data jobs = ([], Return df) ->
  Pd.explode (Df.locations df) = map Some (concat (Df.locations df))
  /\ Pd.explode (Df.skills df) = map Some (concat (Df.skills df))
  /\ normalized_locations df
     = ([], Return (map normalize (concat (Df.locations df))))
  /\ length (Df.locations df) <= length (concat (Df.locations df))
  /\ length (Df.skills df) <= length (concat (Df.skills df)).
Proof.
  intros Hp. pose proof (normalized_locations_of_clean _ _ Hp) as Hn.
  revert Hp. unfold process_job_data.
  destruct (same_length jobs); [| discriminate]. intros [= <-].
  cbn [Df.locations Df.skills] in *.
  assert (Hne : forall col, Forall (fun cell : list text => cell <> [])
                              (map (Py.split ",") col)).
  { intros col. apply Forall_forall. intros cell Hc.
    apply in_map_iff in Hc as (x & <- & _). apply split_not_empty. }
  repeat split; try apply explode_split; try exact Hn;
    apply concat_at_least, Hne.
Qed.

Lemma lower_char_comma c :
  Ascii.eqb (Py.lower_char c) "," = Ascii.eqb c ",".
Proof. destruct c as [[] [] [] [] [] [] [] []]; reflexivity. Qed.

(** Lowercasing and splitting on commas can be done in either order. *)
Lemma split_lower s :
  Py.split "," (Py.lower s) = map Py.lower (Py.split "," s).
Proof.
  induction s as [| c s IH]; [reflexivity |].
  cbn [Py.lower map Py.split]. fold (Py.lower s).
  rewrite lower_char_comma, IH.
  destruct (Ascii.eqb c ","); [reflexivity |].
  pose proof (split_not_empty "," s) as Hn.
  destruct (Py.split "," s); [contradiction | reflexivity].
Qed.

Lemma split_comma_free p : comma_free p -> Py.split "," p = [p].
Proof.
  unfold comma_free. induction p as [| c p IH]; intros H; [reflexivity |].
  cbn [Py.split]. destruct (Ascii.eqb_spec c ",") as [-> | Hc].
  - exfalso. apply H. now left.
  - rewrite IH; [reflexivity |]. intros Hin. apply H. now right.
Qed.

Lemma split_piece_then_comma p rest :
  comma_free p ->
  Py.split "," (p ++ "," :: rest)%char = p :: Py.split "," rest.
Proof.
  unfold comma_free. induction p as [| c p IH]; intros H; [reflexivity |].
  cbn [app Py.split]. destruct (Ascii.eqb_spec c ",") as [-> | Hc].
  - exfalso. apply H. now left.
  - rewrite IH; [reflexivity |]. intros Hin. apply H. now right.
Qed.

Lemma split_join lis :
  lis <> [] -> Forall comma_free lis ->
  Py.split "," (Py.join (t",") lis) = lis.
Proof.
  induction lis as [| p lis IH]; intros Hne H; [contradiction |].
  inversion H as [| ? ? Hp Hl]; subst.
  destruct lis as [| q lis].
  - now apply split_comma_free.
  - rewrite join_cons. change (t",") with [","%char]. cbn [app].
    rewrite split_piece_then_comma by exact Hp.
    f_equal. apply IH; [discriminate | exact Hl].
Qed.

(** X6.  The skill tags survive the trip through the comma-joined string:
    for a job whose tag list is not empty and whose tags hold no comma,
    the skills cell of the cleaned table is the list of the tags in lower
    case.  An empty tag list gives one empty skill, a missing tag block the
    single skill 'na'. *)
Theorem skills_cell_of_tags (job : job_tuple) :
  (forall lis, tags_gt job = Found lis -> lis <> [] ->
               Forall comma_free lis ->
               Py.split "," (Py.lower (skill_of job)) = map Py.lower lis)
  /\ (tags_gt job = Found [] ->
      Py.split "," (Py.lower (skill_of job)) = [[]])
  /\ (tags_gt job = Missing ->
      Py.split "," (Py.lower (skill_of job)) = [t"na"]).
Proof.
  unfold skill_of. repeat split.
  - intros lis -> Hne H. now rewrite split_lower, split_join.
  - intros ->. reflexivity.
  - intros ->. reflexivity.
Qed.

(** X7.  Splitting on commas loses nothing: the list is never empty, no
    piece holds a comma, and joining the pieces with commas gives the
    text back. *)
Theorem split_round_trip (s : text) :
  Py.split "," s <> []
  /\ Forall comma_free (Py.split "," s)
  /\ Py.join (t",") (Py.split "," s) = s.
Proof.
  split; [apply split_not_empty |]. split.
  - exact (split_pieces "," s).
  - exact (join_split "," s).
Qed.

Lemma replace_from_length old s : forall skip,
  length (Py.replace_from old [] skip s) <= length s.
Proof.
  induction s as [| c s IH]; intros skip; [simpl; lia |].
  cbn [Py.replace_from]. destruct skip as [| k].
  - destruct (Py.startswith old (c :: s)); cbn [app length].
    + specialize (IH (length old - 1)). lia.
    + specialize (IH 0). lia.
  - cbn [length]. specialize (IH k). lia.
Qed.

Lemma replace_from_shrinks old s :
  old <> [] -> occurs old s = true ->
  length (Py.replace_from old [] 0 s) < length s.
Proof.
  intros Hne. induction s as [| c s IH]; cbn [occurs]; intros H.
  - destruct old; [contradiction | discriminate].
  - cbn [Py.replace_from]. destruct (Py.startswith old (c :: s)).
    + cbn [app length].
      pose proof (replace_from_length old s (length old - 1)). lia.
    + cbn [orb] in H. cbn [length]. specialize (IH H). lia.
Qed.

Lemma replace_unchanged_iff old s :
  old <> [] ->
  (Py.replace old [] s = s <-> occurs old s = false)
  /\ length (Py.replace old [] s) <= length s.
Proof.
  intros Hne. destruct old as [| a old]; [contradiction |].
  cbn [Py.replace]. split; [| apply replace_from_length].
  split.
  - intros E. destruct (occurs (a :: old) s) eqn:Ho; [| reflexivity].
    pose proof (replace_from_shrinks _ _ Hne Ho) as L.
    rewrite E in L. lia.
  - apply replace_from_absent.
Qed.

(** X8.  Removing [' lacs pa'] leaves a salary as it is exactly when the
    salary does not hold [' lacs pa'], and likewise for [' yrs'] and the
    experience; the result is never longer than the input. *)
Theorem removal_unchanged_iff (s : text) :
  (Py.replace (t" lacs pa") [] s = s <-> occurs (t" lacs pa") s = false)
  /\ (Py.replace (t" yrs") [] s = s <-> occurs (t" yrs") s = false)
  /\ length (Py.replace (t" lacs pa") [] s) <= length s
  /\ length (Py.replace (t" yrs") [] s) <= length s.
Proof.
  destruct (replace_unchanged_iff (t" lacs pa") s) as [H1 H2];
    [discriminate |].
  destruct (replace_unchanged_iff (t" yrs") s) as [H3 H4]; [discriminate |].
  auto.
Qed.

Lemma digits_of_uint d :
  Forall (fun c => is_digit c = true) (t (NilEmpty.string_of_uint d)).
Proof. induction d; simpl; constructor; auto. Qed.

Lemma lower_digits s :
  Forall (fun c => is_digit c = true) s -> Py.lower s = s.
Proof.
  induction 1 as [| c s Hc _ IH]; [reflexivity |].
  cbn [Py.lower map]. fold (Py.lower s). rewrite IH. f_equal.
  revert Hc. destruct c as [[] [] [] [] [] [] [] []];
    vm_compute; congruence.
Qed.

Lemma t_injective a b : t a = t b -> a = b.
Proof.
  unfold t. intros E.
  rewrite <- (string_of_list_ascii_of_string a),
          <- (string_of_list_ascii_of_string b).
  now rewrite E.
Qed.

Lemma str_of_nat_injective n m : Py.str_of_nat n = Py.str_of_nat m -> n = m.
Proof.
  unfold Py.str_of_nat. intros E. apply t_injective in E.
  assert (E' : Some (Nat.to_uint n) = Some (Nat.to_uint m))
    by (rewrite <- !NilEmpty.usu; now rewrite E).
  injection E' as E'.
  rewrite <- (Unsigned.of_to n), <- (Unsigned.of_to m). now rewrite E'.
Qed.

(** X9.  A job number enters the table as its decimal text: digits only,
    never empty, left as it is by the lowercasing, and different numbers
    give different texts. *)
Theorem job_number_text (n : nat) :
  Forall (fun c => is_digit c = true) (Py.str_of_nat n)
  /\ Py.str_of_nat n <> []
  /\ Py.lower (Py.str_of_nat n) = Py.str_of_nat n
  /\ forall m, Py.str_of_nat n = Py.str_of_nat m <-> n = m.
Proof.
  split; [apply digits_of_uint |]. split; [| split].
  - unfold Py.str_of_nat. intros E.
    apply (t_injective _ EmptyString) in E.
    pose proof (NilEmpty.usu (Nat.to_uint n)) as U. rewrite E in U.
    injection U as U.
    pose proof (Unsigned.of_to n) as O. rewrite <- U in O.
    subst n. discriminate U.
  - apply lower_digits, digits_of_uint.
  - intros m. split; [apply str_of_nat_injective | now intros ->].
Qed.

(** ** Location normalisation *)

Lemma sub_from_keeps (P : ascii -> Prop) r repl s :
  Forall P repl -> forall skip prev,
  Forall P s -> Forall P (sub_from r repl skip prev s).
Proof.
  intros Hr. induction s as [| c s IH]; intros skip prev H.
  - destruct skip; [| constructor].
    rewrite sub_from_search. cbv zeta.
    destruct (match_here r false 0 prev []) as [[| m] |];
      [destruct (match_here r true 0 prev []) as [[| m] |] |..];
      repeat (apply Forall_app; split); auto.
  - inversion H as [| ? ? Hc Hs]; subst.
    destruct skip as [| k]; [| rewrite sub_from_skip; auto].
    rewrite sub_from_search. cbv zeta.
    destruct (match_here r false 0 prev (c :: s)) as [[| m] |];
      [destruct (match_here r true 0 prev (c :: s)) as [[| m] |] |..];
      repeat (apply Forall_app; split); auto.
Qed.

Lemma not_space_not_newline c : Py.isspace c = false -> mem Dot c = true.
Proof. destruct c as [[] [] [] [] [] [] [] []]; vm_compute; congruence. Qed.

Lemma star_dot_eol adv rest : forall n prev,
  Forall (fun c => mem Dot c = true) rest -> 1 <= n ->
  match_here [Star Dot; Eol] adv n prev rest = Some (n + length rest).
Proof.
  induction rest as [| c rest IH]; intros n prev H Hn; rewrite match_star.
  - cbn. destruct n; [lia |]. rewrite andb_false_r. f_equal. lia.
  - inversion H as [| ? ? Hc Hrest]; subst. rewrite Hc.
    rewrite IH by (auto; lia). cbn [length]. f_equal. lia.
Qed.

Lemma skip_to_end r repl s : forall prev,
  (forall p, match_here r false 0 p [] = None) ->
  sub_from r repl (length s) prev s
  = match s with [] => sub_from r repl 0 prev [] | _ :: _ => [] end.
Proof.
  intros prev H0. revert prev.
  induction s as [| c s IH]; intros prev; [reflexivity |].
  cbn [length]. rewrite sub_from_skip, IH.
  destruct s; [| reflexivity].
  rewrite sub_from_search, H0. reflexivity.
Qed.

(** On a text without line breaks, [/.*$] cuts everything from the first
    slash on. *)
Lemma sub_slash s : forall prev,
  Forall (fun c => mem Dot c = true) s ->
  sub_from [One (Lit "/"); Star Dot; Eol] [] 0 prev s = before_slash s.
Proof.
  induction s as [| c s IH]; intros prev H.
  - reflexivity.
  - inversion H as [| ? ? Hc Hs]; subst.
    rewrite sub_from_search. cbv zeta.
    change (match_here [One (Lit "/"); Star Dot; Eol] false 0 prev (c :: s))
      with (if Ascii.eqb "/" c
            then match_here [Star Dot; Eol] false 1 (Some c) s
            else None).
    cbn [before_slash]. destruct (Ascii.eqb "/" c).
    + rewrite star_dot_eol by (auto; lia). cbn [Nat.add app].
      rewrite skip_to_end by reflexivity.
      destruct s; reflexivity.
    + f_equal. now apply IH.
Qed.

Lemma before_slash_plain s :
  Forall (fun c => Py.isspace c = false) s ->
  Forall plain_char (before_slash s).
Proof.
  induction 1 as [| c s Hc _ IH]; cbn [before_slash]; [constructor |].
  destruct (Ascii.eqb_spec "/" c) as [<- | Hne]; [constructor |].
  constructor; [| exact IH]. split; [exact Hc | congruence].
Qed.

Lemma rstrip_no_space s :
  Forall (fun c => Py.isspace c = false) s -> Py.rstrip s = s.
Proof.
  induction 1 as [| c s Hc _ IH]; [reflexivity |].
  cbn [Py.rstrip]. rewrite IH. destruct s; [now rewrite Hc | reflexivity].
Qed.

Lemma strip_no_space s :
  Forall (fun c => Py.isspace c = false) s -> Py.strip s = s.
Proof.
  intros H. unfold Py.strip.
  assert (E : Py.lstrip s = s)
    by (destruct H as [| c s Hc _]; simpl; [| rewrite Hc]; reflexivity).
  rewrite E. now apply rstrip_no_space.
Qed.

(** X10.  [replace_location_patterns] returns what stands before the
    first slash once the first three substitutions have been made and all
    whitespace is deleted; the final [strip()] finds nothing to remove.
    So of 'a/b' only 'a' is kept, and a normalised location holds neither
    whitespace nor a slash, also after [replace_common_locations]. *)
Theorem normalized_location_shape (s : text) :
  replace_location_patterns s
  = before_slash (filter (fun c => negb (Py.isspace c)) (after_three s))
  /\ Forall plain_char (replace_location_patterns s)
  /\ Forall plain_char (normalize s).
Proof.
  assert (E : replace_location_patterns s
              = before_slash (filter (fun c => negb (Py.isspace c))
                                     (after_three s))).
  { unfold replace_location_patterns, location_patterns, after_three.
    cbn [fold_left firstn]. unfold sub at 1 2.
    rewrite sub_star_space by lia.
    rewrite sub_slash.
    - apply strip_no_space.
      eapply Forall_impl; [| apply before_slash_plain, filter_no_space].
      now intros c [Hc _].
    - eapply Forall_impl; [| apply filter_no_space].
      exact not_space_not_newline. }
  assert (P : Forall plain_char (replace_location_patterns s))
    by (rewrite E; apply before_slash_plain, filter_no_space).
  split; [exact E |]. split; [exact P |].
  unfold normalize, replace_common_locations, replacements, Py.strip.
  cbn [fold_left fst snd]. apply rstrip_keeps, lstrip_keeps.
  unfold sub.
  repeat (apply sub_from_keeps;
          [repeat constructor; discriminate |]).
  exact P.
Qed.

Lemma word_not_space c : isword c = true -> Py.isspace c = false.
Proof.
  intros H. destruct (Py.isspace c) eqn:E; [| reflexivity].
  apply space_not_word in E. congruence.
Qed.

Lemma rename_is_common_name w : rename w = common_name w.
Proof.
  unfold rename, swap_word, common_name.
  destruct (occurs (t"mumbai") w); cbv iota; [reflexivity |].
  destruct (occurs (t"delhi") w); cbv iota; [reflexivity |].
  destruct (occurs (t"bangal") w); cbv iota; [reflexivity |].
  destruct (occurs (t"noida") w); reflexivity.
Qed.

(** X11.  On a single word [replace_common_locations] decides by the
    order of its dictionary: a word holding 'mumbai' becomes 'mumbai',
    otherwise one holding 'delhi' becomes 'delhi', otherwise one holding
    'bangal' becomes 'bengaluru', otherwise one holding 'noida' becomes
    'noida', and any other word is returned as it is. *)
Theorem replace_common_locations_on_word (w : text) :
  w <> [] -> wordy w -> replace_common_locations w = common_name w.
Proof.
  intros Hne Hw. rewrite replace_common_locations_words.
  pose proof (map_words_word rename w [] [] Hw) as E.
  rewrite app_nil_r in E. rewrite E. cbn [app map_words flush].
  destruct w as [| c w]; [contradiction |].
  destruct (keeps_rename (c :: w) Hne Hw) as [_ Hk].
  rewrite strip_no_space.
  - apply rename_is_common_name.
  - eapply Forall_impl; [| exact Hk]. exact word_not_space.
Qed.

(** ** Counting and distinct values *)

Lemma insert_desc_sorted e tbl :
  StronglySorted at_least tbl -> StronglySorted at_least (Pd.insert_desc e tbl).
Proof.
  induction tbl as [| x tbl IH]; intros H; cbn [Pd.insert_desc].
  - repeat constructor.
  - inversion H as [| ? ? Hs Hall]; subst.
    destruct (snd e <? snd x) eqn:E.
    + apply Nat.ltb_lt in E. constructor; [auto |].
      eapply Permutation_Forall;
        [symmetry; apply insert_desc_perm |].
      constructor; [unfold at_least; lia | exact Hall].
    + apply Nat.ltb_ge in E. constructor; [exact H |].
      constructor; [exact E |].
      eapply Forall_impl; [| exact Hall]. unfold at_least. intros; lia.
Qed.

Lemma sorted_app_inv {A} (R : A -> A -> Prop) l1 l2 :
  StronglySorted R (l1 ++ l2) -> Forall (fun a => Forall (R a) l2) l1.
Proof.
  induction l1 as [| a l1 IH]; simpl; intros H; [constructor |].
  inversion H as [| ? ? Hs Hall]; subst. constructor; [| auto].
  apply Forall_app in Hall. tauto.
Qed.

(** X12.  [value_counts] lists the values by falling count.  So the
    first [k] entries, which are what the bar charts of experience
    ([k] = 10) and salary ([k] = 5) show, are counted at least as often
    as every entry left out. *)
Theorem value_counts_sorted (col : list text) (k : nat) :
  StronglySorted at_least (Pd.value_counts col)
  /\ Forall (fun shown =>
               Forall (fun left_out => snd left_out <= snd shown)
                      (skipn k (Pd.value_counts col)))
            (firstn k (Pd.value_counts col)).
Proof.
  assert (H : StronglySorted at_least (Pd.value_counts col)).
  { unfold Pd.value_counts, Pd.sort_desc.
    induction (Pd.tally col) as [| e tbl IH]; simpl; [constructor |].
    now apply insert_desc_sorted. }
  split; [exact H |].
  rewrite <- (firstn_skipn k (Pd.value_counts col)) in H.
  exact (sorted_app_inv _ _ _ H).
Qed.

Lemma cell_eqb_spec a b : reflect (a = b) (Pd.cell_eqb a b).
Proof.
  destruct a as [x |], b as [y |]; simpl; try (constructor; congruence).
  destruct (text_eqb_spec x y); constructor; congruence.
Qed.

Lemma unique_in v col : In v (Pd.unique col) <-> In v col.
Proof.
  induction col as [| u col IH]; simpl; [tauto |].
  rewrite filter_In, IH. split.
  - tauto.
  - intros [-> | H]; [now left |].
    destruct (cell_eqb_spec u v) as [-> | Hne]; [now left | right; auto].
Qed.

Lemma unique_nodup col : NoDup (Pd.unique col).
Proof.
  induction col as [| u col IH]; simpl; constructor.
  - rewrite filter_In. intros [_ H].
    destruct (cell_eqb_spec u u); [discriminate | congruence].
  - now apply NoDup_filter.
Qed.

(** X13.  [analyze_skills] prints every distinct entry of the exploded
    skills column exactly once, whether or not the word cloud can be
    drawn afterwards. *)
Theorem distinct_skills_printed_once (w : world) (df : Df.frame) :
  NoDup (printed_cells (trace (analyze_skills w df)))
  /\ forall v, In v (printed_cells (trace (analyze_skills w df)))
               <-> In v (Pd.explode (Df.skills df)).
Proof.
  assert (E : printed_cells (trace (analyze_skills w df))
              = Pd.unique (Pd.explode (Df.skills df))).
  { rewrite analyze_skills_trace.
    destruct (printed_of_cells (Pd.unique (Pd.explode (Df.skills df))))
      as (_ & _ & P3 & _).
    cbv zeta in P3. unfold printed_cells in *. cbn [flat_map app].
    rewrite flat_map_app, P3.
    destruct (plot_ok w _); cbn [flat_map app]; now rewrite app_nil_r. }
  rewrite E. split; [apply unique_nodup | intro; apply unique_in].
Qed.

(** ** How a run ends *)

Section Projection.

Context {X : Type} (proj : event -> list X).

Lemma observed_bind {A} (m : M A) (k : A -> M unit) :
  observed proj (bind m k)
  = flat_map proj (trace m)
    ++ match result m with
       | Return a => observed proj (k a)
       | Raise e => proj (Print (Note (Error_occurred e)))
       end.
Proof.
  unfold observed. rewrite trace_bind, result_bind, flat_map_app.
  destruct (result m); now rewrite <- ?app_assoc, ?app_nil_r.
Qed.

Lemma observed_say n (k : unit -> M unit) :
  observed proj (bind (say n) k)
  = proj (Print (Note n)) ++ observed proj (k tt).
Proof. rewrite observed_bind. cbn. now rewrite app_nil_r. Qed.

Lemma observed_call {A} f args (body : M A) val (k : A -> M unit) :
  observed proj (bind (call f args body val) k)
  = proj (Call f args) ++ flat_map proj (trace body)
    ++ match result body with
       | Return a => proj (Ret f (val a)) ++ observed proj (k a)
       | Raise e => proj (Exc f e) ++ proj (Print (Note (Error_occurred e)))
       end.
Proof.
  rewrite observed_bind, trace_call, result_call.
  cbn [flat_map]. rewrite flat_map_app. cbn [flat_map].
  rewrite app_nil_r, <- !app_assoc.
  destruct (result body); reflexivity.
Qed.

Lemma observed_main w :
  flat_map proj (main w)
  = flat_map proj (trace (initialize_driver w))
    ++ match result (initialize_driver w) with
       | Return _ =>
           observed proj (main_body w)
           ++ proj Quit ++ proj (Print (Note WebDriver_closed))
       | Raise e => proj (Print (Note (Error_occurred e)))
       end.
Proof.
  rewrite main_eq, flat_map_app. f_equal.
  destruct (result (initialize_driver w)).
  - unfold observed. rewrite !flat_map_app, <- !app_assoc.
    f_equal. destruct (result (main_body w)); cbn; now rewrite ?app_nil_r.
  - cbn. now rewrite app_nil_r.
Qed.

Lemma proj_gets pages :
  (forall i, proj (Get i) = []) -> flat_map proj (map Get pages) = [].
Proof.
  intros H. induction pages as [| i pages IH]; simpl; [reflexivity |].
  now rewrite H, IH.
Qed.

Lemma proj_cells vs :
  (forall v, proj (Print (Cell v)) = []) ->
  flat_map proj (map (fun v => Print (Cell v)) vs) = [].
Proof.
  intros H. induction vs as [| v vs IH]; simpl; [reflexivity |].
  now rewrite H, IH.
Qed.

Lemma proj_scrape w n :
  (forall i, proj (Get i) = []) ->
  flat_map proj (trace (scrape_naukri_jobs w n)) = [].
Proof.
  intros H. unfold scrape_naukri_jobs.
  destruct (scrape_pages_outcome w (seq 0 n) Jobs.empty) as [[k Hk] _].
  rewrite Hk. now apply proj_gets.
Qed.

Lemma proj_skills w df :
  (forall v, proj (Print (Cell v)) = []) ->
  flat_map proj (trace (analyze_skills w df))
  = proj (Print (Note Distinct_heading))
    ++ flat_map proj
         (if plot_ok w (t"skills_wordcloud.png")
          then [ Savefig (t"skills_wordcloud.png")
                   (Cloud (Py.join (t", ")
                             (Pd.dropna (Pd.explode (Df.skills df)))))
               ; Print (Note (Plot_saved (t"skills_wordcloud.png"))) ]
          else []).
Proof.
  intros H. rewrite analyze_skills_trace.
  change (flat_map proj (?a :: ?l)) with (proj a ++ flat_map proj l).
  now rewrite flat_map_app, proj_cells.
Qed.

End Projection.

Ltac driver_started :=
  change (trace (emit Open;;; emit Maximize)) with [Open; Maximize];
  change (result (emit Open;;; emit Maximize)) with (@Return unit tt);
  cbv iota.

(** X14.  Whatever a plot or a write does, [main] saves image files only
    under its five fixed names, in their fixed order and each at most
    once: the files saved in a run are the first few of the five.  After
    the first plot that cannot be saved no further file is saved. *)
Theorem saved_files_are_a_prefix (w : world) :
  exists k, saved_files (main w) = firstn k plot_files.
Proof.
  change (saved_files (main w)) with (flat_map saved_file (main w)).
  rewrite observed_main. unfold initialize_driver.
  destruct (chrome_starts w); [| exists 0; reflexivity].
  destruct (maximize_ok w); [| exists 0; reflexivity].
  driver_started. unfold main_body.
  rewrite observed_say, observed_call, proj_scrape by reflexivity.
  destruct (result (scrape_naukri_jobs w num_pages)) as [j | e];
    [| exists 0; reflexivity].
  rewrite observed_say.
  destruct (Jobs.job_no j); [exists 0; reflexivity |].
  rewrite observed_call, process_trace.
  destruct (result (process_job_data j)) as [df | e];
    [| exists 0; reflexivity].
  rewrite observed_call, to_csv_trace.
  destruct (result (to_csv w df)) as [[] | e]; [| exists 0; reflexivity].
  rewrite !observed_say.
  rewrite observed_call, analyze_experience_trace, analyze_experience_result.
  destruct (plot_ok w (t"experience_range.png"));
    [| exists 0; reflexivity].
  rewrite observed_say.
  rewrite observed_call, analyze_salary_trace, analyze_salary_result.
  destruct (plot_ok w (t"salaries_range.png")); [| exists 1; reflexivity].
  rewrite observed_say.
  rewrite observed_call, clean_and_analyze_locations_trace,
    clean_and_analyze_locations_result.
  destruct (result (normalized_locations df)); [| exists 2; reflexivity].
  destruct (plot_ok w (t"job_location_counts.png"));
    [| exists 2; reflexivity].
  destruct (plot_ok w (t"location_wordcloud.png"));
    [| exists 3; reflexivity].
  rewrite observed_say.
  rewrite observed_call, proj_skills, analyze_skills_result by reflexivity.
  destruct (plot_ok w (t"skills_wordcloud.png"));
    [exists 5 | exists 4]; reflexivity.
Qed.

Ltac ends_with_error := right; right; eexists; reflexivity.

(** X15.  Every run of [main] ends in exactly one of three ways, and
    says so once: 'Analysis complete', 'No job data scraped', or 'An
    error occurred'.  No run prints two of these messages or none. *)
Theorem run_ends_in_one_way (w : world) :
  verdicts (main w) = [Analysis_complete]
  \/ verdicts (main w) = [No_job_data]
  \/ exists e, verdicts (main w) = [Error_occurred e].
Proof.
  unfold verdicts. rewrite observed_main. unfold initialize_driver.
  destruct (chrome_starts w); [| ends_with_error].
  destruct (maximize_ok w); [| ends_with_error].
  driver_started. unfold main_body.
  rewrite observed_say, observed_call, proj_scrape by reflexivity.
  destruct (result (scrape_naukri_jobs w num_pages)) as [j | e];
    [| ends_with_error].
  rewrite observed_say.
  destruct (Jobs.job_no j); [right; left; reflexivity |].
  rewrite observed_call, process_trace.
  destruct (result (process_job_data j)) as [df | e]; [| ends_with_error].
  rewrite observed_call, to_csv_trace.
  destruct (result (to_csv w df)) as [[] | e]; [| ends_with_error].
  rewrite !observed_say.
  rewrite observed_call, analyze_experience_trace, analyze_experience_result.
  destruct (plot_ok w (t"experience_range.png")); [| ends_with_error].
  rewrite observed_say.
  rewrite observed_call, analyze_salary_trace, analyze_salary_result.
  destruct (plot_ok w (t"salaries_range.png")); [| ends_with_error].
  rewrite observed_say.
  rewrite observed_call, clean_and_analyze_locations_trace,
    clean_and_analyze_locations_result.
  destruct (result (normalized_locations df)); [| ends_with_error].
  destruct (plot_ok w (t"job_location_counts.png")); [| ends_with_error].
  destruct (plot_ok w (t"location_wordcloud.png")); [| ends_with_error].
  rewrite observed_say.
  rewrite observed_call, proj_skills, analyze_skills_result by reflexivity.
  destruct (plot_ok w (t"skills_wordcloud.png"));
    [left; reflexivity | ends_with_error].
Qed.

Lemma columns_of_nothing jobs : columns_of jobs [] -> jobs = Jobs.empty.
Proof.
  destruct jobs as [n r c l e s k].
  intros (H0 & H1 & H2 & H3 & H4 & H5 & H6). simpl in *. subst.
  destruct n; [reflexivity | discriminate].
Qed.

(** X16.  When the scraper returns but no job element shows role,
    company, location and experience, [main] stops after scraping: the
    dictionary is empty, nothing is cleaned, no CSV file is written, no
    analysis runs and no image is saved; the browser is still closed. *)
Theorem nothing_scraped (w : world) (jobs : Jobs.dict) :
  chrome_starts w = true -> maximize_ok w = true ->
  result (scrape_naukri_jobs w num_pages) = Return jobs ->
  kept w (seq 0 num_pages) = [] ->
  jobs = Jobs.empty
  /\ main w
     = [ Open; Maximize; Print (Note Scraping_started)
       ; Call scrape_naukri_jobs_f [VDriver; VInt num_pages] ]
       ++ map Get (seq 0 num_pages)
       ++ [ Ret scrape_naukri_jobs_f (VJobs Jobs.empty)
          ; Print (Note Scraping_complete)
          ; Print (Note No_job_data)
          ; Quit; Print (Note WebDriver_closed) ].
Proof.
  intros Hc Hm Hs Hk.
  pose proof (scrape_pages_step w (seq 0 num_pages) _ [] _
                columns_of_empty Hs) as H.
  cbn [app] in H. rewrite Hk in H. apply columns_of_nothing in H. subst jobs.
  split; [reflexivity |].
  assert (Ht : trace (scrape_naukri_jobs w num_pages)
               = map Get (seq 0 num_pages)).
  { destruct (scrape_pages_outcome w (seq 0 num_pages) Jobs.empty)
      as [_ Hres].
    unfold scrape_naukri_jobs in *. now rewrite Hs in Hres. }
  rewrite main_eq. unfold initialize_driver. rewrite Hc, Hm.
  driver_started. unfold main_body.
  Opaque scrape_naukri_jobs.
  repeat progress
    (rewrite ?trace_bind, ?result_bind, ?trace_call, ?result_call, ?Hs;
     cbn [say emit trace result fst snd Jobs.job_no Jobs.empty]; cbv iota).
  Transparent scrape_naukri_jobs.
  rewrite Ht. repeat (rewrite <- ?app_assoc; cbn [app]). reflexivity.
Qed.

(** ** More on cleaning and counting *)

Lemma lower_char_idem c : Py.lower_char (Py.lower_char c) = Py.lower_char c.
Proof. destruct c as [[] [] [] [] [] [] [] []]; reflexivity. Qed.


Lemma sum_counts_at_least c :
  Forall (fun e : text * nat => 1 <= snd e) c -> length c <= sum_counts c.
Proof.
  unfold sum_counts. induction 1 as [| e c He _ IH]; simpl; lia.
Qed.

(** X18.  In a [value_counts] series every count is at least 1 and at
    most the number of rows, there are at most as many entries as rows,
    and the counts add up to the number of rows. *)
Theorem value_counts_bounds (col : list text) :
  Forall (fun e => 1 <= snd e <= length col) (Pd.value_counts col)
  /\ length (Pd.value_counts col) <= length col
  /\ sum_counts (Pd.value_counts col) = length col.
Proof.
  destruct (value_counts_is_frequency_table col) as (_ & Hk & Hc).
  assert (Hb : Forall (fun e => 1 <= snd e <= length col)
                      (Pd.value_counts col)).
  { apply Forall_forall. intros e He. rewrite Forall_forall in Hc.
    rewrite (Hc e He). unfold occurrences. split.
    - apply (count_occ_In text_dec), Hk, in_map, He.
    - apply count_occ_bound. }
  split; [exact Hb |]. split; [| apply value_counts_sum].
  pose proof (value_counts_sum col) as Hs.
  assert (Hl : length (Pd.value_counts col) <= sum_counts (Pd.value_counts col)).
  { apply sum_counts_at_least.
    eapply Forall_impl; [| exact Hb]. simpl. intros e He. lia. }
  lia.
Qed.

(** X19.  [replace_common_locations] works word by word on any text:
    every maximal run of word characters is replaced by its common name,
    every other character is copied, and the result is stripped. *)
Theorem replace_common_locations_word_by_word (s : text) :
  replace_common_locations s = Py.strip (map_words common_name [] s).
Proof.
  rewrite replace_common_locations_words. f_equal.
  apply map_words_ext. exact rename_is_common_name.
Qed.

(* ================================================================== *)
(** ** The further properties at the sample data *)

Lemma scrape_returns_without_errors_witness :
  exists jobs, result (scrape_naukri_jobs world1 1) = Return jobs.
Proof.
  apply (scrape_returns_without_errors world1 1).
  intros i _. eexists. split; [reflexivity |]. repeat constructor.
Defined.

Lemma scraped_job_numbers_witness :
  result (scrape_naukri_jobs world1 1) = Return jobs1
  /\ Jobs.job_no jobs1 = numbers_of_pages world1 (seq 0 1)
  /\ StronglySorted lt (Jobs.job_no jobs1).
Proof.
  split; [reflexivity |].
  destruct (scraped_job_numbers world1 1 jobs1 eq_refl) as (H1 & _ & H3).
  split; [exact H1 | exact (H3 eq_refl)].
Defined.


Lemma cleaned_table_explodes_witness :
  process_job_data jobs1 = ([], Return df1)
  /\ normalized_locations df1
     = ([], Return (map normalize (concat (Df.locations df1))))
  /\ length (Df.locations df1) <= length (concat (Df.locations df1)).
Proof.
  split; [reflexivity |].
  destruct (cleaned_table_explodes jobs1 df1 eq_refl) as (_ & _ & H3 & H4 & _).
  split; [exact H3 | exact H4].
Defined.

Lemma skills_cell_of_tags_witness :
  tags_gt job1 = Found [t"Manual Testing"; t"Java"]
  /\ Py.split "," (Py.lower (skill_of job1))
     = map Py.lower [t"Manual Testing"; t"Java"]
  /\ (tags_gt job4 = Found []
      /\ Py.split "," (Py.lower (skill_of job4)) = [[]])
  /\ (tags_gt job3 = Missing
      /\ Py.split "," (Py.lower (skill_of job3)) = [t"na"]).
Proof.
  split; [reflexivity |]. split.
  - destruct (skills_cell_of_tags job1) as (H & _ & _).
    apply H; [reflexivity | discriminate |].
    repeat constructor; unfold comma_free; simpl; intuition discriminate.
  - split.
    + destruct (skills_cell_of_tags job4) as (_ & H & _).
      split; [reflexivity | exact (H eq_refl)].
    + destruct (skills_cell_of_tags job3) as (_ & _ & H).
      split; [reflexivity | exact (H eq_refl)].
Defined.

Lemma replace_common_locations_on_word_witness :
  t"navimumbai" <> [] /\ wordy (t"navimumbai")
  /\ replace_common_locations (t"navimumbai") = common_name (t"navimumbai").
Proof.
  assert (H1 : t"navimumbai" <> []) by discriminate.
  assert (H2 : wordy (t"navimumbai")) by repeat constructor.
  split; [exact H1 |]. split; [exact H2 |].
  exact (replace_common_locations_on_word _ H1 H2).
Defined.

Lemma nothing_scraped_witness :
  chrome_starts world_nothing = true /\ maximize_ok world_nothing = true
  /\ result (scrape_naukri_jobs world_nothing num_pages) = Return Jobs.empty
  /\ kept world_nothing (seq 0 num_pages) = []
  /\ saved_files (main world_nothing) = []
  /\ closed (main world_nothing) = 1.
Proof.
  repeat (split; [reflexivity |]).
  destruct (nothing_scraped world_nothing Jobs.empty eq_refl eq_refl eq_refl
              eq_refl) as [_ H].
  rewrite H. split; reflexivity.
Defined.
